(** * ScrollView.web.js: a shallow embedding and its specification

    The development follows [src/Libraries/ScrollView/ScrollView.web.js].
    JavaScript values are embedded as an inductive type with the language's
    truthiness, props objects are finite maps from property names to values,
    and the effects of the component (calls into application callbacks,
    writes to the DOM node, thrown [TypeError]s) are made explicit. *)

From Stdlib Require Import ZArith Lia List String.
From stdpp Require Import base option gmap strings list.
Import ListNotations.

Local Open Scope string_scope.
Local Open Scope Z_scope.
Local Open Scope list_scope.

(** ** JavaScript values *)

Set Warnings "-ambiguous-paths".
Module Js.

(** What a call can throw: the [TypeError] of the language, or whatever an
    application callback raises. *)
Inductive exn : Type :=
| TypeError (msg : string)
| AppError (msg : string).

(** An application callback.  It is opaque but for its name, under which its
    calls are logged, and for whether a call of it returns or throws. *)
Record callback : Type := Callback { name : nat; failure : option exn }.

(** A natural number stands for the callback of that name that returns, and a
    callback stands for its name where a name is expected. *)
Definition returning (id : nat) : callback :=
  {| name := id; failure := None |}.
Coercion returning : nat >-> callback.
Coercion name : callback >-> nat.
Bind Scope nat_scope with callback.

(** The values of the language.  [VNum n] is the integer [n], with [VNum 0]
    for +0; the other numbers are [VNaN], [VNegZero] for -0, the infinities,
    and [VFrac num den] for the quotient [num / den] of a finite number that
    is not an integer.  [func] enumerates the function values that occur in
    the component: application callbacks, the literal [() => {}], methods of
    the instance bound by [autobind], and the result of
    [throttle(fn, wait)]. *)
#[warnings="-register-all"]
Inductive value : Type :=
| VUndefined
| VNull
| VBool (b : bool)
| VNum (n : Z)
| VStr (s : string)
| VObj (fields : list (string * value))
| VArr (items : list value)
| VFun (f : func)
| VNaN
| VNegZero
| VInfinity (negative : bool)
| VFrac (num : Z) (den : positive)
with func : Type :=
| FApp (cb : callback)
| FNoop
| FMethod (name : string)
| FThrottled (fn : func) (wait : value).

(** ToBoolean: the falsy values are [undefined], [null], [false], the
    numbers 0, -0 and [NaN], and the empty string. *)
Definition truthy (v : value) : bool :=
  match v with
  | VUndefined | VNull => false
  | VBool b => b
  | VNum n => negb (n =? 0)
  | VStr s => negb (String.eqb s "")
  | VObj _ | VArr _ | VFun _ => true
  | VNaN | VNegZero => false
  | VInfinity _ => true
  | VFrac num _ => negb (num =? 0)
  end.

(** [typeof v === 'number']. *)
Definition isNumber (v : value) : bool :=
  match v with
  | VNum _ | VNaN | VNegZero | VInfinity _ | VFrac _ _ => true
  | _ => false
  end.

(** Whether a call of the function throws of its own: only an application
    callback can. *)
Definition fails (f : func) : option exn :=
  match f with
  | FApp cb => failure cb
  | _ => None
  end.

(** [a && b], [a || b] and [!a]. *)
Definition js_and (a b : value) : value := if truthy a then b else a.
Definition js_or (a b : value) : value := if truthy a then a else b.
Definition js_not (a : value) : value := VBool (negb (truthy a)).

(** [a !== undefined]. *)
Definition not_undefined (a : value) : bool :=
  match a with VUndefined => false | _ => true end.

(** Property read [o.k] on an object that is used as a map: a missing key
    reads as [undefined]. *)
Definition prop (o : gmap string value) (k : string) : value :=
  default VUndefined (o !! k).

Inductive outcome (A : Type) : Type :=
| Normal (a : A)
| Throws (e : exn).
Arguments Normal {A} a.
Arguments Throws {A} e.

(** A call of an application callback, as the application observes it. *)
Record invocation : Type := Invoke { callee : nat; arguments : list value }.

(** Computations that log the application callbacks they call and may throw. *)
Definition M (A : Type) : Type := (list invocation * outcome A)%type.

Definition ret {A} (a : A) : M A := ([], Normal a).
Definition throw {A} (e : exn) : M A := ([], Throws e).
Definition bind {A B} (m : M A) (k : A -> M B) : M B :=
  match m with
  | (log, Normal a) => let '(log', r) := k a in (log ++ log', r)
  | (log, Throws e) => (log, Throws e)
  end.
Definition logged {A} (m : M A) : list invocation := fst m.
Definition result {A} (m : M A) : outcome A := snd m.

End Js.
Export Js.
Set Warnings "ambiguous-paths".

(** ** The scroll event throttle *)

Module Throttle.

Section Payload.
Context {A : Type}.

(** Modelled from the spec: the state of the [throttle] function that
    [render] imports from [domkit/throttle], which is not among the sources.
    The fields are those of the specification's ThrottleState; there is no
    field for the timer, a deferred forward being scheduled exactly while an
    event is pending. *)
Record ThrottleState : Type := mkThrottle
  { lastInvokedAt : option Z;
    pendingArgs : option A;
    intervalMs : Z }.

(** Modelled from the spec: the state when the subscription is established;
    nothing has been forwarded and nothing is pending. *)
Definition create (interval : Z) : ThrottleState :=
  {| lastInvokedAt := None; pendingArgs := None; intervalMs := interval |}.

(** Modelled from the spec: the test [now - lastInvokedAt >= intervalMs] of
    the throttle; before the first forwarded call nothing holds an event
    back. *)
Definition elapsed (s : ThrottleState) (now : Z) : bool :=
  match lastInvokedAt s with
  | None => true
  | Some l => intervalMs s <=? now - l
  end.

(** Modelled from the spec: [observe(event)] of the throttle at time [now].
    With interval 0 the event is forwarded at once; an event observed at
    least [intervalMs] after the last forwarded call is forwarded at once and
    becomes the last forwarded call; any other event replaces [pendingArgs].
    The result is the new state and the calls forwarded by this observation,
    each with the time at which it is made. *)
Definition observe (s : ThrottleState) (now : Z) (event : A)
  : ThrottleState * list (Z * A) :=
  if intervalMs s =? 0 then (s, [(now, event)])
  else if elapsed s now then
    ({| lastInvokedAt := Some now; pendingArgs := None;
        intervalMs := intervalMs s |}, [(now, event)])
  else
    ({| lastInvokedAt := lastInvokedAt s; pendingArgs := Some event;
        intervalMs := intervalMs s |}, []).

(** Modelled from the spec: the time [lastInvokedAt + intervalMs] at which
    the deferred forward of the throttle is due, if one is scheduled. *)
Definition deadline (s : ThrottleState) : option Z :=
  match pendingArgs s, lastInvokedAt s with
  | Some _, Some l => Some (l + intervalMs s)
  | _, _ => None
  end.

(** Modelled from the spec: the deferred callback of the throttle.  It
    forwards the payload pending when it fires, at its due time, which
    becomes the time of the last forwarded call, and clears [pendingArgs]. *)
Definition fire (s : ThrottleState) : ThrottleState * list (Z * A) :=
  match pendingArgs s, lastInvokedAt s with
  | Some p, Some l =>
      ({| lastInvokedAt := Some (l + intervalMs s); pendingArgs := None;
          intervalMs := intervalMs s |}, [(l + intervalMs s, p)])
  | _, _ => (s, [])
  end.

(** Modelled from the spec: the host's timer facility for the throttle.
    When time has passed up to [now], a deferred forward that was due earlier
    has fired; one that is due exactly at [now] runs after the handler that is
    being dispatched at [now], as in the specification's scenario, where the
    event of t = 100 is forwarded at once. *)
Definition advance (s : ThrottleState) (now : Z)
  : ThrottleState * list (Z * A) :=
  match deadline s with
  | Some d => if d <? now then fire s else (s, [])
  | None => (s, [])
  end.

(** Modelled from the spec: one timestamped notification reaches the
    throttle; time passes, then the event is observed. *)
Definition step (s : ThrottleState) (n : Z * A)
  : ThrottleState * list (Z * A) :=
  let '(s1, out1) := advance s (fst n) in
  let '(s2, out2) := observe s1 (fst n) (snd n) in
  (s2, out1 ++ out2).

(** Modelled from the spec: the throttle receives the notifications in
    order; the deferred forward that may remain afterwards is not included. *)
Fixpoint steps (s : ThrottleState) (notifs : list (Z * A))
  : ThrottleState * list (Z * A) :=
  match notifs with
  | [] => (s, [])
  | n :: rest =>
      let '(s1, out1) := step s n in
      let '(s2, out2) := steps s1 rest in
      (s2, out1 ++ out2)
  end.

(** Modelled from the spec: all calls that the throttle forwards for a
    sequence of notifications, in the order in which they are made; a
    deferred forward still pending after the last notification fires at its
    due time. *)
Definition run (s : ThrottleState) (notifs : list (Z * A)) : list (Z * A) :=
  let '(s', out) := steps s notifs in out ++ snd (fire s').

(** The host's clock does not run backwards: timestamps never decrease. *)
Fixpoint notBefore (lo : Z) (notifs : list (Z * A)) : Prop :=
  match notifs with
  | [] => True
  | n :: rest => lo <= fst n /\ notBefore (fst n) rest
  end.

Definition chronological (notifs : list (Z * A)) : Prop :=
  match notifs with
  | [] => True
  | n :: rest => notBefore (fst n) rest
  end.

(** Consecutive calls are at least [interval] apart. *)
Fixpoint spacedFrom (interval lo : Z) (calls : list (Z * A)) : Prop :=
  match calls with
  | [] => True
  | c :: rest => lo + interval <= fst c /\ spacedFrom interval (fst c) rest
  end.

Definition spaced (interval : Z) (calls : list (Z * A)) : Prop :=
  match calls with
  | [] => True
  | c :: rest => spacedFrom interval (fst c) rest
  end.

(** The same, also counting from an earlier forwarded call, if any. *)
Definition spacedAfter (interval : Z) (lo : option Z) (calls : list (Z * A))
  : Prop :=
  match lo with
  | Some l => spacedFrom interval l calls
  | None => spaced interval calls
  end.

(** The calls made in the window [[x, x + interval)]. *)
Definition within (x interval : Z) (calls : list (Z * A)) : list (Z * A) :=
  List.filter (fun c => (x <=? fst c) && (fst c <? x + interval)) calls.

End Payload.
Arguments ThrottleState A : clear implicits.

(** Modelled from the spec: [throttle(fn, wait)] of [domkit/throttle] seen
    from outside, as the timestamped calls of [fn] for timestamped calls of
    the wrapper.  The contract speaks of integer intervals only; for any
    other [wait] nothing is promised and nothing is forwarded here. *)
Definition throttled (wait : value) (notifs : list (Z * value))
  : list (Z * value) :=
  match wait with
  | VNum w => run (create w) notifs
  | _ => []
  end.

End Throttle.

(** ** The component *)

Module ScrollView.

Definition SCROLLVIEW : string := "ScrollView".
Definition INNERVIEW : string := "InnerScrollView".

(** The style sheet of the module.  [StyleSheet.create] is taken to hand back
    the style objects it is given. *)
Module styles.
Definition base : value :=
  VObj [("overflow", VStr "scroll");
        ("WebkitOverflowScrolling", VStr "touch");
        ("flex", VNum 1)].
Definition contentContainer : value :=
  VObj [("position", VStr "absolute"); ("minWidth", VStr "100%")].
Definition contentContainerHorizontal : value :=
  VObj [("alignSelf", VStr "flex-start"); ("flexDirection", VStr "row")].
End styles.

(** The part of a DOM node that the component writes.  The node keeps the
    value it is given; clamping to the scrollable range is the browser's. *)
Record DomNode : Type := mkDomNode { scrollTop : value; scrollLeft : value }.

(** A component instance: [this.props], and for each ref of a mounted
    instance the DOM node that [ReactDOM.findDOMNode(this.refs[name])]
    yields.  Before mounting there is no such node and the lookup is [null]. *)
Record Instance : Type := mkInstance
  { props : gmap string value;
    refs : gmap string DomNode }.

(** An instance whose outer view is mounted on [node]. *)
Definition mountedAt (node : DomNode) (ps : gmap string value) : Instance :=
  {| props := ps; refs := {[ SCROLLVIEW := node ]} |}.

(** React elements as [render] builds them. *)
#[warnings="-register-all"]
Inductive Element : Type :=
| Children (v : value)
| View (ref : string) (attrs : gmap string value) (children : list Element).

Definition attributes (el : Element) : gmap string value :=
  match el with
  | View _ attrs _ => attrs
  | Children _ => ∅
  end.

Definition getScrollResponder (this : Instance) : Instance := this.

Definition getInnerViewNode (this : Instance) : option DomNode :=
  refs this !! INNERVIEW.

Definition scrollWithoutAnimationTo (this : Instance) (destY destX : value)
  : outcome Instance :=
  match refs this !! SCROLLVIEW with
  | None => Throws (TypeError "Cannot set property 'scrollTop' of null")
  | Some scrollView =>
      let scrollView :=
        {| scrollTop := js_or destY (VNum 0);
           scrollLeft := scrollLeft scrollView |} in
      let scrollView :=
        {| scrollTop := scrollTop scrollView;
           scrollLeft := js_or destX (VNum 0) |} in
      Normal {| props := props this;
                refs := <[SCROLLVIEW := scrollView]> (refs this) |}
  end.

Definition scrollTo (this : Instance) (destY destX : value)
  : outcome Instance :=
  scrollWithoutAnimationTo this destY destX.

(** A call [f(args)] of a value taken from the props.  A call of an
    application callback is logged; it returns or throws as the callback
    does, and what it returns is not used by the component.  The component's
    own functions are not handed in as props by an application; called
    through a prop they log nothing.  Values that are not functions cannot be
    called. *)
Definition call (f : value) (args : list value) : M value :=
  match f with
  | VFun (FApp cb) =>
      ([Invoke cb args],
       match failure cb with
       | None => Normal VUndefined
       | Some err => Throws err
       end)
  | VFun _ => ret VUndefined
  | _ => throw (TypeError "this.props.onScroll is not a function")
  end.

Definition handleScroll (this : Instance) (e : value) : M value :=
  if truthy (prop (props this) "onScroll")
  then bind (call (prop (props this) "onScroll") [e]) (fun _ => ret VUndefined)
  else ret VUndefined.

(** The directives that a style value carries: the fields of a style object,
    and for a list of styles those of its entries, in order. *)
Fixpoint directives (style : value) : list (string * value) :=
  match style with
  | VObj fields => fields
  | VArr items => flat_map directives items
  | _ => []
  end.

(** [throttle(fn, wait)] as [render] calls it. *)
Definition throttle (fn : func) (wait : value) : func := FThrottled fn wait.

Definition contentContainerStyle (this : Instance) : value :=
  VArr [styles.contentContainer;
        js_and (prop (props this) "horizontal") styles.contentContainerHorizontal;
        prop (props this) "contentContainerStyle"].

Definition contentContainer (this : Instance) : Element :=
  View INNERVIEW
    (<["collapsable" := VBool false]>
     (<["removeClippedSubviews" := prop (props this) "removeClippedSubviews"]>
      (<["style" := contentContainerStyle this]> ∅)))
    [Children (prop (props this) "children")].

Definition alwaysBounceHorizontal (this : Instance) : value :=
  if not_undefined (prop (props this) "alwaysBounceHorizontal")
  then prop (props this) "alwaysBounceHorizontal"
  else prop (props this) "horizontal".

Definition alwaysBounceVertical (this : Instance) : value :=
  if not_undefined (prop (props this) "alwaysBounceVertical")
  then prop (props this) "alwaysBounceVertical"
  else js_not (prop (props this) "horizontal").

(** The local [handleScroll] of [render]. *)
Definition scrollHandler (this : Instance) : func :=
  if truthy (js_and (prop (props this) "scrollEventThrottle")
                    (prop (props this) "onScroll"))
  then throttle (FMethod "handleScroll") (prop (props this) "scrollEventThrottle")
  else FNoop.

(** [this.name] for a handler that the responder mixin contributes. *)
Definition mixed (name : string) : value := VFun (FMethod name).

(** The local [props] of [render], the object literal
    [{...this.props, alwaysBounceHorizontal, ...}]: the spread first, every
    later key overriding it. *)
Definition outerProps (this : Instance) : gmap string value :=
  <["onResponderReject" := mixed "scrollResponderHandleResponderReject"]>
  (<["onResponderRelease" := mixed "scrollResponderHandleResponderRelease"]>
  (<["onResponderTerminate" := mixed "scrollResponderHandleTerminate"]>
  (<["onResponderTerminationRequest" := mixed "scrollResponderHandleTerminationRequest"]>
  (<["onResponderGrant" := mixed "scrollResponderHandleResponderGrant"]>
  (<["onScroll" := VFun FNoop]>
  (<["onScrollShouldSetResponder" := VFun (scrollHandler this)]>
  (<["onStartShouldSetResponderCapture" := mixed "scrollResponderHandleStartShouldSetResponderCapture"]>
  (<["onStartShouldSetResponder" := mixed "scrollResponderHandleStartShouldSetResponder"]>
  (<["onMomentumScrollEnd" := mixed "scrollResponderHandleMomentumScrollEnd"]>
  (<["onMomentumScrollBegin" := mixed "scrollResponderHandleMomentumScrollBegin"]>
  (<["onScrollEndDrag" := mixed "scrollResponderHandleScrollEndDrag"]>
  (<["onScrollBeginDrag" := mixed "scrollResponderHandleScrollBeginDrag"]>
  (<["onTouchEnd" := mixed "scrollResponderHandleTouchEnd"]>
  (<["onTouchMove" := mixed "scrollResponderHandleTouchMove"]>
  (<["onTouchStart" := mixed "scrollResponderHandleTouchStart"]>
  (<["style" := VArr [styles.base; prop (props this) "style"]]>
  (<["alwaysBounceVertical" := alwaysBounceVertical this]>
  (<["alwaysBounceHorizontal" := alwaysBounceHorizontal this]>
     (props this))))))))))))))))))).

(** [<View {...props} ref={SCROLLVIEW}>{contentContainer}</View>]: the
    content container given as the child takes the place of the [children]
    that the spread carries, so the view has no [children] attribute besides
    its list of children. *)
Definition render (this : Instance) : Element :=
  View SCROLLVIEW (delete "children" (outerProps this)) [contentContainer this].

(** The methods that the class body declares. *)
Definition classMethods : list string :=
  ["getScrollResponder"; "getInnerViewNode"; "scrollTo";
   "scrollWithoutAnimationTo"; "handleScroll"; "render"].

(** The call of the application callback [cb] that hands it the payload of
    the notification [n], as it is, at the time of [n]. *)
Definition callOf (cb : nat) (n : Z * value) : Z * invocation :=
  (fst n, Invoke cb [snd n]).

Section Dispatch.
(** The behaviour of a throttled function over time is a parameter: given
    the [wait] argument and the timestamped calls of the wrapper, the
    timestamped calls of the wrapped function. *)
Variable throttleRun : value -> list (Z * value) -> list (Z * value).

(** A synchronous call of one of the component's handlers. *)
Definition invoke (this : Instance) (f : func) (e : value) : M value :=
  match f with
  | FApp id => call (VFun (FApp id)) [e]
  | FNoop => ret VUndefined
  | FMethod name =>
      if String.eqb name "handleScroll" then handleScroll this e
      else ret VUndefined
  | FThrottled _ _ => ret VUndefined
  end.

(** The handler [f] receives the timestamped notifications [notifs]: the
    calls that are made, each with its time, its log and its outcome. *)
Fixpoint dispatch (this : Instance) (f : func) (notifs : list (Z * value))
  : list (Z * M value) :=
  match f with
  | FThrottled fn wait => dispatch this fn (throttleRun wait notifs)
  | _ => List.map (fun n => (fst n, invoke this f (snd n))) notifs
  end.

Definition dispatchTo (this : Instance) (h : value)
    (notifs : list (Z * value)) : list (Z * M value) :=
  match h with
  | VFun f => dispatch this f notifs
  | _ => []
  end.

(** Modelled from the spec: the host's delivery of scroll notifications,
    which lives in the View primitive and the responder plugin and not in
    this file.  Every notification of the underlying scroll primitive is
    handed to the scroll handlers of the rendered element. *)
Definition deliverScroll (this : Instance) (notifs : list (Z * value))
  : list (Z * M value) :=
  dispatchTo this (prop (attributes (render this)) "onScrollShouldSetResponder") notifs
  ++ dispatchTo this (prop (attributes (render this)) "onScroll") notifs.

(** What the application sees: the calls of its callbacks, with times. *)
Definition onScrollCalls (this : Instance) (notifs : list (Z * value))
  : list (Z * invocation) :=
  flat_map (fun c => List.map (pair (fst c)) (logged (snd c)))
           (deliverScroll this notifs).

(** No call made while delivering the notifications throws. *)
Definition noThrow (this : Instance) (notifs : list (Z * value)) : Prop :=
  Forall (fun c => exists v, result (snd c) = Normal v)
         (deliverScroll this notifs).
End Dispatch.

End ScrollView.

(** ** The responder arbiter *)

Module Responder.

(** Modelled from the spec: the phases of the responder arbitration that
    [render] wires in through the handlers of [ScrollResponder.Mixin].  The
    mixin and the shared registry are not among the sources; the phases, the
    fields of the per-widget state, the transitions and the registry
    operations [tryClaim], [release] and [requestTerminate] below are those of
    the specification's Responder Arbiter. *)
Inductive Phase : Type := Idle | Claiming | Active | Terminating.

(** Modelled from the spec: the lifecycle notifications of the responder
    arbiter, named after the handlers that [render] passes on. *)
Inductive Notification : Type :=
| onResponderGrant
| onResponderReject
| onResponderTerminate
| onResponderRelease
| onScrollBeginDrag
| onScrollEndDrag.

(** Modelled from the spec: the policy of a widget in the arbitration,
    whether it is eligible to claim ([scrollEnabled]) and whether it allows a
    termination request (the default policy allows it). *)
Record Policy : Type := mkPolicy
  { scrollEnabled : bool;
    allowsTermination : bool }.

(** Modelled from the spec: the ResponderState of one widget. *)
Record ResponderState : Type := mkResponderState
  { policy : Policy;
    phase : Phase;
    touchStartTimestamp : Z;
    touchStartPosition : Z * Z;
    isDragging : bool }.

(** Modelled from the spec: the widgets of the application and the shared
    "current responder" slot of the registry. *)
Record System : Type := mkSystem
  { widgets : gmap nat ResponderState;
    ownerId : option nat }.

(** Modelled from the spec: the gesture samples that the host hands to a
    widget. *)
Inductive TouchEvent : Type :=
| TouchStart (w : nat) (position : Z * Z) (timestamp : Z)
| TouchMove (w : nat) (position : Z * Z) (timestamp : Z)
| TouchEnd (w : nat).

(** Modelled from the spec: the ResponderState created when a widget
    mounts. *)
Definition mounted (p : Policy) : ResponderState :=
  {| policy := p; phase := Idle; touchStartTimestamp := 0;
     touchStartPosition := (0, 0); isDragging := false |}.

(** Modelled from the spec: the application after mounting; every widget is
    idle and nobody owns the slot. *)
Definition mount (ps : gmap nat Policy) : System :=
  {| widgets := mounted <$> ps; ownerId := None |}.

(** Modelled from the spec: a widget of the arbiter enters a phase. *)
Definition enter (ph : Phase) (dragging : bool) (s : ResponderState)
  : ResponderState :=
  {| policy := policy s; phase := ph;
     touchStartTimestamp := touchStartTimestamp s;
     touchStartPosition := touchStartPosition s;
     isDragging := dragging |}.

(** Modelled from the spec: a touch-start is captured by the arbiter, with
    position and timestamp, and the widget starts claiming. *)
Definition capture (position : Z * Z) (timestamp : Z) (s : ResponderState)
  : ResponderState :=
  {| policy := policy s; phase := Claiming;
     touchStartTimestamp := timestamp;
     touchStartPosition := position;
     isDragging := false |}.

(** Modelled from the spec: the eligibility test of the arbiter, movement
    since touch-start beyond the distance threshold on either axis. *)
Definition exceeds (threshold : Z) (start position : Z * Z) : bool :=
  (threshold <? Z.abs (fst position - fst start))
  || (threshold <? Z.abs (snd position - snd start)).

(** Modelled from the spec: [requestTerminate] of the registry.  The current
    owner [o] is asked to yield.  Only an [Active] owner whose policy allows
    it is terminated: it is notified, the slot is cleared, and the owner,
    having passed through [Terminating], is [Idle] when the request is
    over. *)
Definition requestTerminate (σ : System) (o : nat)
  : System * list (nat * Notification) * bool :=
  match widgets σ !! o with
  | Some s =>
      match phase s with
      | Active =>
          if allowsTermination (policy s) then
            ({| widgets := <[o := enter Idle false s]> (widgets σ);
                ownerId := None |},
             [(o, onResponderTerminate)], true)
          else (σ, [], false)
      | _ => (σ, [], false)
      end
  | None => (σ, [], false)
  end.

(** Modelled from the spec: the registry grants the slot to the claimant. *)
Definition grant (σ : System) (w : nat) (s : ResponderState)
  : System * list (nat * Notification) :=
  ({| widgets := <[w := enter Active false s]> (widgets σ);
      ownerId := Some w |},
   [(w, onResponderGrant)]).

(** Modelled from the spec: the registry rejects the claim. *)
Definition reject (σ : System) (w : nat) (s : ResponderState)
  : System * list (nat * Notification) :=
  ({| widgets := <[w := enter Idle false s]> (widgets σ);
      ownerId := ownerId σ |},
   [(w, onResponderReject)]).

(** Modelled from the spec: [tryClaim] of the registry, for a [Claiming]
    widget [w] with state [s].  A free slot is granted; an owned slot is
    granted after the owner has yielded to a termination request, and the
    claim is rejected otherwise. *)
Definition tryClaim (σ : System) (w : nat) (s : ResponderState)
  : System * list (nat * Notification) :=
  match ownerId σ with
  | None => grant σ w s
  | Some o =>
      let '(σ', told, yielded) := requestTerminate σ o in
      if yielded then
        let '(σ'', told') := grant σ' w s in (σ'', told ++ told')
      else reject σ w s
  end.

(** Modelled from the spec: [release] of the registry; the owner gives the
    slot up at the end of its touch. *)
Definition release (σ : System) (w : nat) (s : ResponderState)
  : System * list (nat * Notification) :=
  ({| widgets := <[w := enter Idle false s]> (widgets σ);
      ownerId := None |},
   (if isDragging s then [(w, onScrollEndDrag)] else [])
   ++ [(w, onResponderRelease)]).

(** Modelled from the spec: the transition of the arbiter for one touch
    event.  A touch-start of an idle, eligible widget is captured; a move of
    a claiming widget beyond the threshold attempts the claim; the first such
    move of the owner begins the drag; a touch-end releases the owner and
    ends a claim that was never attempted. *)
Definition step (threshold : Z) (σ : System) (ev : TouchEvent)
  : System * list (nat * Notification) :=
  match ev with
  | TouchStart w position timestamp =>
      match widgets σ !! w with
      | Some s =>
          match phase s with
          | Idle =>
              if scrollEnabled (policy s) then
                ({| widgets := <[w := capture position timestamp s]> (widgets σ);
                    ownerId := ownerId σ |}, [])
              else (σ, [])
          | _ => (σ, [])
          end
      | None => (σ, [])
      end
  | TouchMove w position _ =>
      match widgets σ !! w with
      | Some s =>
          match phase s with
          | Claiming =>
              if exceeds threshold (touchStartPosition s) position
              then tryClaim σ w s else (σ, [])
          | Active =>
              if negb (isDragging s)
                 && exceeds threshold (touchStartPosition s) position
              then ({| widgets := <[w := enter Active true s]> (widgets σ);
                       ownerId := ownerId σ |}, [(w, onScrollBeginDrag)])
              else (σ, [])
          | _ => (σ, [])
          end
      | None => (σ, [])
      end
  | TouchEnd w =>
      match widgets σ !! w with
      | Some s =>
          match phase s with
          | Active => release σ w s
          | Claiming =>
              ({| widgets := <[w := enter Idle false s]> (widgets σ);
                  ownerId := ownerId σ |}, [])
          | _ => (σ, [])
          end
      | None => (σ, [])
      end
  end.

(** Modelled from the spec: the arbiter processes a sequence of touch
    events in order; the state reached and everything the widgets were told
    on the way. *)
Fixpoint run (threshold : Z) (σ : System) (evs : list TouchEvent)
  : System * list (nat * Notification) :=
  match evs with
  | [] => (σ, [])
  | ev :: rest =>
      let '(σ1, told1) := step threshold σ ev in
      let '(σ2, told2) := run threshold σ1 rest in
      (σ2, told1 ++ told2)
  end.

(** Widget [w] holds [Active] responder ownership. *)
Definition holdsActive (σ : System) (w : nat) : Prop :=
  exists s, widgets σ !! w = Some s /\ phase s = Active.

(** The slot names exactly the [Active] widget. *)
Definition consistent (σ : System) : Prop :=
  forall w s, widgets σ !! w = Some s ->
              (phase s = Active <-> ownerId σ = Some w).

End Responder.

(** ** The static tables of the component *)

Module ScrollViewTables.

(** The validators that [propTypes] uses. *)
Inductive PropType : Type :=
| PBool
| PNumber
| PFunc
| POneOf (choices : list string)
| PArrayOf (item : PropType).

(** [static propTypes]: the declared props with their validators, in the
    order of the class body.  The entries that the source keeps commented out
    ([contentInset], [contentOffset], [contentContainerStyle],
    [scrollIndicatorInsets], [style]) are not declared. *)
Definition propTypes : list (string * PropType) :=
  [("automaticallyAdjustContentInsets", PBool);
   ("bounces", PBool);
   ("bouncesZoom", PBool);
   ("alwaysBounceHorizontal", PBool);
   ("alwaysBounceVertical", PBool);
   ("centerContent", PBool);
   ("decelerationRate", PNumber);
   ("horizontal", PBool);
   ("directionalLockEnabled", PBool);
   ("canCancelContentTouches", PBool);
   ("keyboardDismissMode", POneOf ["none"; "interactive"; "on-drag"]);
   ("keyboardShouldPersistTaps", PBool);
   ("maximumZoomScale", PNumber);
   ("minimumZoomScale", PNumber);
   ("onScroll", PFunc);
   ("onScrollAnimationEnd", PFunc);
   ("pagingEnabled", PBool);
   ("scrollEnabled", PBool);
   ("scrollEventThrottle", PNumber);
   ("scrollsToTop", PBool);
   ("showsHorizontalScrollIndicator", PBool);
   ("showsVerticalScrollIndicator", PBool);
   ("stickyHeaderIndices", PArrayOf PNumber);
   ("snapToInterval", PNumber);
   ("snapToAlignment", POneOf ["start"; "center"; "end"]);
   ("removeClippedSubviews", PBool);
   ("zoomScale", PNumber)].

(** The keys that the object literal of [render] writes after the spread of
    [this.props]. *)
Definition renderKeys : list string :=
  ["alwaysBounceHorizontal"; "alwaysBounceVertical"; "style";
   "onTouchStart"; "onTouchMove"; "onTouchEnd";
   "onScrollBeginDrag"; "onScrollEndDrag";
   "onMomentumScrollBegin"; "onMomentumScrollEnd";
   "onStartShouldSetResponder"; "onStartShouldSetResponderCapture";
   "onScrollShouldSetResponder"; "onScroll";
   "onResponderGrant"; "onResponderTerminationRequest";
   "onResponderTerminate"; "onResponderRelease"; "onResponderReject"].

(** The keys of that literal that are bound to a handler of the responder
    mixin, each with the name of the method. *)
Definition responderHandlers : list (string * string) :=
  [("onTouchStart", "scrollResponderHandleTouchStart");
   ("onTouchMove", "scrollResponderHandleTouchMove");
   ("onTouchEnd", "scrollResponderHandleTouchEnd");
   ("onScrollBeginDrag", "scrollResponderHandleScrollBeginDrag");
   ("onScrollEndDrag", "scrollResponderHandleScrollEndDrag");
   ("onMomentumScrollBegin", "scrollResponderHandleMomentumScrollBegin");
   ("onMomentumScrollEnd", "scrollResponderHandleMomentumScrollEnd");
   ("onStartShouldSetResponder", "scrollResponderHandleStartShouldSetResponder");
   ("onStartShouldSetResponderCapture",
    "scrollResponderHandleStartShouldSetResponderCapture");
   ("onResponderGrant", "scrollResponderHandleResponderGrant");
   ("onResponderTerminationRequest", "scrollResponderHandleTerminationRequest");
   ("onResponderTerminate", "scrollResponderHandleTerminate");
   ("onResponderRelease", "scrollResponderHandleResponderRelease");
   ("onResponderReject", "scrollResponderHandleResponderReject")].

(** The attributes that [render] gives to the content container. *)
Definition contentContainerKeys : list string :=
  ["style"; "removeClippedSubviews"; "collapsable"].

End ScrollViewTables.

(** * Properties of the throttle contract *)

Module ThrottleFacts.
Import Throttle.

Section Payload.
Context {A : Type}.
Implicit Types (s : ThrottleState A) (n : Z * A) (notifs out : list (Z * A)).

Ltac case1 :=
  match goal with
  | |- context [?a =? ?b] => destruct (Z.eqb_spec a b)
  | |- context [?a <=? ?b] => destruct (Z.leb_spec a b)
  | |- context [?a <? ?b] => destruct (Z.ltb_spec a b)
  | H : context [?a =? ?b] |- _ => destruct (Z.eqb_spec a b)
  | H : context [?a <=? ?b] |- _ => destruct (Z.leb_spec a b)
  | H : context [?a <? ?b] |- _ => destruct (Z.ltb_spec a b)
  end.
Ltac cases := repeat (case1; simpl in *).

Ltac open_state s :=
  destruct s as [[?l|] [?p|] ?iv];
  unfold step, advance, observe, fire, deadline, elapsed in *;
  simpl in *.

Lemma steps_app s notifs1 notifs2 :
  steps s (notifs1 ++ notifs2)
  = (fst (steps (fst (steps s notifs1)) notifs2),
     snd (steps s notifs1) ++ snd (steps (fst (steps s notifs1)) notifs2)).
Proof.
  revert s. induction notifs1 as [|n rest IH]; intros s; simpl.
  - now destruct (steps s notifs2).
  - destruct (step s n) as [s1 out1]. rewrite IH.
    destruct (steps s1 rest) as [s2 out2]. simpl.
    now rewrite app_assoc.
Qed.

Lemma run_cons s n rest :
  run s (n :: rest) = snd (step s n) ++ run (fst (step s n)) rest.
Proof.
  unfold run. simpl. destruct (step s n) as [s1 out1]. simpl.
  destruct (steps s1 rest) as [s2 out2]. now rewrite app_assoc.
Qed.

Lemma run_app s notifs1 notifs2 :
  run s (notifs1 ++ notifs2)
  = snd (steps s notifs1) ++ run (fst (steps s notifs1)) notifs2.
Proof.
  unfold run. rewrite steps_app.
  destruct (steps s notifs1) as [s1 out1]. simpl.
  destruct (steps s1 notifs2) as [s2 out2]. simpl.
  now rewrite app_assoc.
Qed.

Lemma run_flush s notifs :
  run s notifs = snd (steps s notifs) ++ snd (fire (fst (steps s notifs))).
Proof. unfold run. now destruct (steps s notifs). Qed.

Lemma step_interval s n : intervalMs (fst (step s n)) = intervalMs s.
Proof. destruct n as [now e]. open_state s; cases; reflexivity. Qed.

Lemma steps_interval s notifs :
  intervalMs (fst (steps s notifs)) = intervalMs s.
Proof.
  revert s. induction notifs as [|n rest IH]; intros s; simpl; [reflexivity|].
  pose proof (step_interval s n) as Hs.
  destruct (step s n) as [s1 out1]. specialize (IH s1).
  destruct (steps s1 rest) as [s2 out2]. simpl in *. congruence.
Qed.

(** *** Interval zero and negative intervals hold nothing back *)

Lemma step_unthrottled s n :
  intervalMs s <= 0 -> pendingArgs s = None ->
  (forall l, lastInvokedAt s = Some l -> l <= fst n) ->
  snd (step s n) = [n]
  /\ pendingArgs (fst (step s n)) = None
  /\ (forall l, lastInvokedAt (fst (step s n)) = Some l -> l <= fst n).
Proof.
  destruct n as [now e]. intros Hi Hp Hl.
  open_state s; try discriminate; cases; simpl;
    try (specialize (Hl _ eq_refl)); try lia;
    repeat split; auto; try (intros ? [=]; lia).
Qed.

Lemma run_unthrottled notifs : forall s lo,
  intervalMs s <= 0 -> pendingArgs s = None ->
  (forall l, lastInvokedAt s = Some l -> l <= lo) ->
  notBefore lo notifs ->
  run s notifs = notifs.
Proof.
  induction notifs as [|n rest IH]; intros s lo Hi Hp Hl Hn.
  - unfold run, fire. simpl. now rewrite Hp.
  - destruct Hn as [Hlo Hn]. rewrite run_cons.
    destruct (step_unthrottled s n Hi Hp) as (Hout & Hp' & Hl').
    { intros l E. specialize (Hl l E). lia. }
    rewrite Hout. simpl. f_equal.
    apply (IH _ (fst n)); auto. now rewrite step_interval.
Qed.

(** *** Spacing of the forwarded calls *)

Lemma run_spacedAfter notifs : forall s,
  intervalMs s <> 0 ->
  spacedAfter (intervalMs s) (lastInvokedAt s) (run s notifs).
Proof.
  induction notifs as [|n rest IH]; intros s Hi.
  - unfold run. open_state s; simpl; auto. split; [lia | exact I].
  - rewrite run_cons.
    assert (Hi' : intervalMs (fst (step s n)) <> 0)
      by now rewrite step_interval.
    specialize (IH _ Hi'). rewrite step_interval in IH.
    destruct n as [now e].
    open_state s; cases; simpl in *; try lia; auto; repeat split; auto; lia.
Qed.

Lemma spacedFrom_lower interval lo out :
  0 <= interval -> spacedFrom interval lo out ->
  Forall (fun c => lo + interval <= fst c) out.
Proof.
  intros Hi. revert lo. induction out as [|c rest IH]; intros lo H.
  - constructor.
  - destruct H as [Hc Hrest]. constructor; [exact Hc|].
    specialize (IH _ Hrest). eapply Forall_impl; [exact IH|].
    simpl. intros c' Hc'. lia.
Qed.

Lemma within_none x interval out :
  Forall (fun c => x + interval <= fst c) out -> within x interval out = [].
Proof.
  induction 1 as [|c rest Hc _ IH]; [reflexivity|].
  unfold within in *. simpl. rewrite IH.
  destruct (Z.ltb_spec (fst c) (x + interval)); [lia|].
  now rewrite andb_false_r.
Qed.

Lemma spacedFrom_window interval out : forall lo x,
  0 < interval -> spacedFrom interval lo out ->
  (length (within x interval out) <= 1)%nat.
Proof.
  induction out as [|c rest IH]; intros lo x Hi H; simpl; [lia|].
  destruct H as [Hc Hrest].
  destruct ((x <=? fst c) && (fst c <? x + interval)) eqn:E.
  - apply andb_true_iff in E as [E1 E2].
    apply Z.leb_le in E1. apply Z.ltb_lt in E2.
    fold (within x interval rest). rewrite within_none; [simpl; lia|].
    eapply Forall_impl;
      [apply (spacedFrom_lower interval (fst c)); [lia|exact Hrest]|].
    simpl. intros c' Hc'. lia.
  - exact (IH _ x Hi Hrest).
Qed.

Lemma spaced_window interval out x :
  0 < interval -> spaced interval out ->
  (length (within x interval out) <= 1)%nat.
Proof.
  intros Hi H. destruct out as [|c rest]; [simpl; lia|].
  simpl in H.
  apply (spacedFrom_window interval (c :: rest) (fst c - interval) x Hi).
  split; [lia | exact H].
Qed.

Lemma run_window interval notifs x :
  0 < interval ->
  (length (within x interval (run (create interval) notifs)) <= 1)%nat.
Proof.
  intros Hi. apply spaced_window; [exact Hi|].
  apply (run_spacedAfter notifs (create interval)). simpl. lia.
Qed.

(** *** The first event after a quiet period *)

Lemma step_last s n l :
  intervalMs s <> 0 ->
  lastInvokedAt (fst (step s n)) = Some l ->
  lastInvokedAt s = Some l \/ exists p, In (l, p) (snd (step s n)).
Proof.
  destruct n as [now e]. intros Hi.
  open_state s; cases; try lia; intros [= <-]; eauto;
    right; eexists; simpl; eauto.
Qed.

Lemma steps_last notifs : forall s l,
  intervalMs s <> 0 ->
  lastInvokedAt (fst (steps s notifs)) = Some l ->
  lastInvokedAt s = Some l \/ exists p, In (l, p) (snd (steps s notifs)).
Proof.
  induction notifs as [|n rest IH]; intros s l Hi; simpl; [auto|].
  pose proof (step_last s n) as Hstep.
  pose proof (step_interval s n) as Hiv.
  destruct (step s n) as [s1 out1]. simpl in *.
  specialize (IH s1 l). destruct (steps s1 rest) as [s2 out2]. simpl in *.
  intros Hl. destruct IH as [H1 | [p Hp]]; [congruence | exact Hl | |].
  - destruct (Hstep _ Hi H1) as [H0 | [p Hp]]; [auto|].
    right. exists p. apply in_or_app. auto.
  - right. exists p. apply in_or_app. auto.
Qed.

Lemma step_after_quiet s t e :
  0 < intervalMs s ->
  Forall (fun c => fst c + intervalMs s <= t) (snd (fire s)) ->
  (forall l, lastInvokedAt s = Some l -> pendingArgs s = None ->
             l + intervalMs s <= t) ->
  snd (step s (t, e)) = snd (fire s) ++ [(t, e)].
Proof.
  intros Hi Hf Hl.
  open_state s.
  - apply Forall_cons in Hf as [Hf _]. simpl in Hf.
    cases; try lia; reflexivity.
  - specialize (Hl _ eq_refl eq_refl). cases; try lia; reflexivity.
  - cases; try lia; reflexivity.
  - cases; try lia; reflexivity.
Qed.

Lemma run_first_after_quiet interval (pre post : list (Z * A)) t (e : A) :
  0 < interval ->
  Forall (fun c => fst c + interval <= t) (run (create interval) pre) ->
  exists rest,
    run (create interval) (pre ++ (t, e) :: post)
    = run (create interval) pre ++ (t, e) :: rest.
Proof.
  intros Hi Hq. rewrite run_app, run_cons.
  rewrite (run_flush (create interval) pre) in Hq |- *.
  pose proof (steps_interval (create interval) pre) as Hiv.
  pose proof (steps_last pre (create interval)) as Hlast.
  destruct (steps (create interval) pre) as [sp op]. simpl in *.
  apply Forall_app in Hq as [Hop Hfire].
  rewrite step_after_quiet.
  - eexists. rewrite <- !app_assoc. simpl. reflexivity.
  - lia.
  - now rewrite Hiv.
  - intros l Hl _. rewrite Hiv.
    destruct (Hlast l) as [H0 | [p Hp]]; [lia | exact Hl | discriminate |].
    rewrite Forall_forall in Hop. apply (Hop (l, p)).
    now apply list_elem_of_In.
Qed.

(** *** The last event of a burst *)

Lemma step_last_bound s n :
  (forall l, lastInvokedAt s = Some l -> l <= fst n) ->
  forall l, lastInvokedAt (fst (step s n)) = Some l -> l <= fst n.
Proof.
  destruct n as [now e]. intros Hl.
  open_state s; cases; intros ? [= <-]; try lia;
    specialize (Hl _ eq_refl); lia.
Qed.

Lemma steps_last_bound notifs : forall s lo t e,
  (forall l, lastInvokedAt s = Some l -> l <= lo) ->
  notBefore lo (notifs ++ [(t, e)]) ->
  forall l, lastInvokedAt (fst (steps s notifs)) = Some l -> l <= t.
Proof.
  induction notifs as [|n rest IH]; intros s lo t e Hl Hn; simpl in *.
  - intros l E. specialize (Hl l E). lia.
  - destruct Hn as [Hlo Hn].
    pose proof (step_last_bound s n) as Hstep.
    destruct (step s n) as [s1 out1]. simpl in *.
    specialize (IH s1 (fst n) t e).
    destruct (steps s1 rest) as [s2 out2]. simpl in *.
    apply IH; [|exact Hn]. apply Hstep.
    intros l E. specialize (Hl l E). lia.
Qed.

Lemma step_forwards_or_holds s t e :
  0 < intervalMs s ->
  (forall l, lastInvokedAt s = Some l -> l <= t) ->
  In (t, e) (snd (step s (t, e)))
  \/ (pendingArgs (fst (step s (t, e))) = Some e
      /\ exists l, lastInvokedAt (fst (step s (t, e))) = Some l
                   /\ l <= t /\ t < l + intervalMs s).
Proof.
  intros Hi Hl.
  open_state s; cases; try lia; simpl; auto;
    try (specialize (Hl _ eq_refl));
    right; (split; [reflexivity|]); eexists; (split; [reflexivity|]); lia.
Qed.

Lemma pending_fires s e l post :
  pendingArgs s = Some e -> lastInvokedAt s = Some l ->
  Forall (fun n => l + intervalMs s < fst n) post ->
  In (l + intervalMs s, e) (run s post).
Proof.
  intros Hp Hl Hpost. destruct post as [|[now e'] rest].
  - unfold run. simpl. unfold fire. rewrite Hp, Hl. simpl. auto.
  - rewrite run_cons. apply in_or_app. left.
    apply Forall_cons in Hpost as [Hnow _]. simpl in Hnow.
    unfold step, advance, deadline, fire. simpl. rewrite Hp, Hl.
    destruct (Z.ltb_spec (l + intervalMs s) now); [|lia].
    destruct (observe _ now e'). simpl. auto.
Qed.

Lemma chronological_notBefore notifs n :
  chronological (n :: notifs) -> notBefore (fst n) (n :: notifs).
Proof. simpl. intros H. split; [lia | exact H]. Qed.

Lemma run_last_of_burst interval (pre post : list (Z * A)) t (e : A) :
  0 < interval ->
  chronological (pre ++ [(t, e)]) ->
  Forall (fun n => t + interval < fst n) post ->
  exists f, t <= f <= t + interval
            /\ In (f, e) (run (create interval) (pre ++ (t, e) :: post)).
Proof.
  intros Hi Hc Hpost. rewrite run_app, run_cons.
  pose proof (steps_interval (create interval) pre) as Hiv.
  assert (Hl : forall l,
             lastInvokedAt (fst (steps (create interval) pre)) = Some l ->
             l <= t).
  { destruct pre as [|n rest].
    - simpl. discriminate.
    - apply (steps_last_bound (n :: rest) (create interval) (fst n) t e).
      + simpl. discriminate.
      + apply (chronological_notBefore (rest ++ [(t, e)]) n). exact Hc. }
  destruct (steps (create interval) pre) as [sp op]. simpl in *.
  pose proof (step_interval sp (t, e)) as Hiv'.
  destruct (step_forwards_or_holds sp t e) as [Hin | (Hp & l & Hlast & Hle & Hlt)];
    [lia | exact Hl | |].
  - exists t. split; [lia|]. apply in_or_app. right. apply in_or_app. auto.
  - exists (l + interval). split; [lia|].
    apply in_or_app. right. apply in_or_app. right.
    replace interval with (intervalMs (fst (step sp (t, e)))) at 1 by congruence.
    apply pending_fires; auto.
    eapply Forall_impl; [exact Hpost|]. simpl. intros n Hn. lia.
Qed.

Lemma run_unthrottled_create interval notifs :
  interval <= 0 -> chronological notifs ->
  run (create interval) notifs = notifs.
Proof.
  intros Hi Hc. destruct notifs as [|n rest].
  - reflexivity.
  - apply (run_unthrottled (n :: rest) (create interval) (fst n));
      simpl; auto; try discriminate.
    split; [lia | exact Hc].
Qed.

Lemma within_map {B : Type} (f : A -> B) x interval out :
  within x interval (List.map (fun c => (fst c, f (snd c))) out)
  = List.map (fun c => (fst c, f (snd c))) (within x interval out).
Proof.
  unfold within. induction out as [|c rest IH]; simpl; [reflexivity|].
  destruct ((x <=? fst c) && (fst c <? x + interval)); simpl; now rewrite IH.
Qed.

(** *** Forwarded calls are never later than one interval after an event *)

Lemma run_times_bounded notifs : forall s lo T,
  0 < intervalMs s ->
  (forall l, lastInvokedAt s = Some l -> l <= lo) ->
  lo <= T ->
  notBefore lo notifs ->
  Forall (fun n => fst n <= T) notifs ->
  Forall (fun c => fst c <= T + intervalMs s) (run s notifs).
Proof.
  induction notifs as [|n rest IH]; intros s lo T Hi Hl HT Hn Hall.
  - unfold run. open_state s; repeat constructor; simpl.
    specialize (Hl _ eq_refl). lia.
  - destruct Hn as [Hlo Hn]. apply Forall_cons in Hall as [HnT Hall].
    rewrite run_cons. apply Forall_app. split.
    + clear IH Hn Hall. destruct n as [now e]. simpl in *.
      open_state s; cases; repeat constructor; simpl;
        try (specialize (Hl _ eq_refl)); lia.
    + rewrite <- (step_interval s n).
      apply (IH _ (fst n)); auto.
      * now rewrite step_interval.
      * apply step_last_bound. intros l E. specialize (Hl l E). lia.
Qed.

Lemma run_quiet_after_events interval (pre : list (Z * A)) t :
  0 < interval -> chronological pre ->
  Forall (fun n => fst n + 2 * interval <= t) pre ->
  Forall (fun c => fst c + interval <= t) (run (create interval) pre).
Proof.
  intros Hi Hc Hall. destruct pre as [|n rest]; [constructor|].
  pose proof (run_times_bounded (n :: rest) (create interval) (fst n)
                (t - 2 * interval)) as H.
  simpl in H.
  assert (Hfirst : fst n <= t - 2 * interval).
  { apply Forall_cons in Hall as [Hn _]. lia. }
  assert (Hbound : Forall (fun m : Z * A => fst m <= t - 2 * interval)
                          (n :: rest)).
  { eapply Forall_impl; [exact Hall|]. simpl. intros c Hc'. lia. }
  assert (Hord : fst n <= fst n /\ notBefore (fst n) rest)
    by (split; [lia | exact Hc]).
  specialize (H Hi ltac:(discriminate) Hfirst Hord Hbound).
  eapply Forall_impl; [exact H|]. simpl. intros c Hc'. lia.
Qed.

(** The scenario of the specification: interval 100, sixteen events at
    t = 0, 10, ..., 150.  The events at 0 and at 100 are forwarded at once,
    and the deferred forward at 200 carries the event of 150. *)
Example run_scenario :
  run (create 100)
      (List.map (fun k => (10 * Z.of_nat k, Z.of_nat k)) (seq 0 16))
  = [(0, 0); (100, 10); (200, 15)].
Proof. vm_compute. reflexivity. Qed.

End Payload.
End ThrottleFacts.

(** * Properties of the component *)

Module ScrollViewFacts.
Import ScrollView.

(** Reading a key of the rendered props: skip the later keys of the object
    literal, then hit the key itself or fall through to the spread. *)
Ltac read_attr :=
  unfold prop, render, attributes, outerProps;
  try (rewrite lookup_delete_ne by discriminate);
  repeat (rewrite lookup_insert_ne by discriminate);
  try rewrite lookup_insert_eq; try reflexivity.

Lemma attr_alwaysBounceHorizontal (this : Instance) :
  prop (attributes (render this)) "alwaysBounceHorizontal"
  = alwaysBounceHorizontal this.
Proof. read_attr. Qed.

Lemma attr_alwaysBounceVertical (this : Instance) :
  prop (attributes (render this)) "alwaysBounceVertical"
  = alwaysBounceVertical this.
Proof. read_attr. Qed.

Lemma attr_onScrollShouldSetResponder (this : Instance) :
  prop (attributes (render this)) "onScrollShouldSetResponder"
  = VFun (scrollHandler this).
Proof. read_attr. Qed.

Lemma attr_onScroll (this : Instance) :
  prop (attributes (render this)) "onScroll" = VFun FNoop.
Proof. read_attr. Qed.

(** Props that [render] does not set come from the spread. *)
Lemma attr_centerContent (this : Instance) :
  prop (attributes (render this)) "centerContent"
  = prop (props this) "centerContent".
Proof. read_attr. Qed.

Lemma not_undefined_true (v : value) :
  v <> VUndefined -> not_undefined v = true.
Proof. destruct v; simpl; congruence. Qed.

(** C9. For every props configuration, the rendered [alwaysBounceHorizontal]
    is the value of [horizontal] when the prop is undefined, the rendered
    [alwaysBounceVertical] is the negation of [horizontal] when the prop is
    undefined, and a prop that is provided is passed through unchanged. *)
Theorem bounce_defaults (this : Instance) :
  (prop (props this) "alwaysBounceHorizontal" = VUndefined ->
   prop (attributes (render this)) "alwaysBounceHorizontal"
   = prop (props this) "horizontal")
  /\ (prop (props this) "alwaysBounceVertical" = VUndefined ->
      prop (attributes (render this)) "alwaysBounceVertical"
      = VBool (negb (truthy (prop (props this) "horizontal"))))
  /\ (prop (props this) "alwaysBounceHorizontal" <> VUndefined ->
      prop (attributes (render this)) "alwaysBounceHorizontal"
      = prop (props this) "alwaysBounceHorizontal")
  /\ (prop (props this) "alwaysBounceVertical" <> VUndefined ->
      prop (attributes (render this)) "alwaysBounceVertical"
      = prop (props this) "alwaysBounceVertical").
Proof.
  rewrite attr_alwaysBounceHorizontal, attr_alwaysBounceVertical.
  unfold alwaysBounceHorizontal, alwaysBounceVertical, js_not.
  repeat split; intros H.
  - now rewrite H.
  - now rewrite H.
  - now rewrite (not_undefined_true _ H).
  - now rewrite (not_undefined_true _ H).
Qed.

Lemma bounce_defaults_witness :
  let this := {| props := {[ "horizontal" := VBool true;
                            "alwaysBounceVertical" := VBool true ]};
                 refs := ∅ |} in
  prop (attributes (render this)) "alwaysBounceHorizontal" = VBool true
  /\ prop (attributes (render this)) "alwaysBounceVertical" = VBool true.
Proof.
  intros this.
  destruct (bounce_defaults this) as (Hh & _ & _ & Hv).
  split.
  - rewrite Hh; reflexivity.
  - rewrite Hv; [reflexivity | discriminate].
Defined.

(** C10. When the [onScroll] prop is absent, [handleScroll] calls no callback
    and returns normally, whatever the event. *)
Theorem handleScroll_without_onScroll (this : Instance) (e : value) :
  prop (props this) "onScroll" = VUndefined ->
  handleScroll this e = ([], Normal VUndefined).
Proof.
  intros H. unfold handleScroll. rewrite H. reflexivity.
Qed.

Lemma handleScroll_without_onScroll_witness :
  handleScroll {| props := {[ "scrollEventThrottle" := VNum 16 ]}; refs := ∅ |}
               (VStr "scroll")
  = ([], Normal VUndefined).
Proof.
  apply handleScroll_without_onScroll. reflexivity.
Defined.

(** ** Imperative scrolling *)

Lemma scrollWithoutAnimationTo_mounted (this : Instance) (destY destX : value)
    (node : DomNode) :
  refs this !! SCROLLVIEW = Some node ->
  scrollWithoutAnimationTo this destY destX
  = Normal {| props := props this;
              refs := <[SCROLLVIEW := {| scrollTop := js_or destY (VNum 0);
                                         scrollLeft := js_or destX (VNum 0) |}]>
                        (refs this) |}.
Proof.
  intros H. unfold scrollWithoutAnimationTo. rewrite H. reflexivity.
Qed.

(** C5, as stated, fails: the first argument of [scrollTo] is the vertical
    offset.  [scrollTo(1, 2)] leaves the horizontal offset at 2 and the
    vertical offset at 1. *)
Lemma scrollTo_first_argument_is_vertical :
  let this := mountedAt {| scrollTop := VNum 0; scrollLeft := VNum 0 |} ∅ in
  exists this' node,
    scrollTo this (VNum 1) (VNum 2) = Normal this'
    /\ refs this' !! SCROLLVIEW = Some node
    /\ ~ (scrollLeft node = VNum 1 /\ scrollTop node = VNum 2).
Proof.
  intros this.
  eexists _, _. split; [reflexivity |]. split; [reflexivity |].
  simpl. intros [H _]. discriminate H.
Qed.

(** C5, amended. On a mounted widget [scrollTo(destY, destX)] writes
    [destY || 0] to the vertical offset [scrollTop] and [destX || 0] to the
    horizontal offset [scrollLeft] of the underlying node, in the one
    synchronous step of [scrollWithoutAnimationTo]; the props and the other
    refs are untouched. *)
Theorem scrollTo_sets_offsets (this : Instance) (destY destX : value)
    (node : DomNode) :
  refs this !! SCROLLVIEW = Some node ->
  exists this',
    scrollTo this destY destX = Normal this'
    /\ scrollTo this destY destX = scrollWithoutAnimationTo this destY destX
    /\ refs this' !! SCROLLVIEW
       = Some {| scrollTop := js_or destY (VNum 0);
                 scrollLeft := js_or destX (VNum 0) |}
    /\ props this' = props this
    /\ (forall r, r <> SCROLLVIEW -> refs this' !! r = refs this !! r).
Proof.
  intros H. eexists. unfold scrollTo.
  rewrite (scrollWithoutAnimationTo_mounted _ _ _ _ H).
  split; [reflexivity |]. split; [reflexivity |]. simpl.
  split; [apply lookup_insert_eq |]. split; [reflexivity |].
  intros r Hr. apply lookup_insert_ne. congruence.
Qed.

Lemma scrollTo_sets_offsets_witness :
  exists this',
    scrollTo (mountedAt {| scrollTop := VNum 0; scrollLeft := VNum 0 |} ∅)
             (VNum 30) VUndefined = Normal this'
    /\ refs this' !! SCROLLVIEW
       = Some {| scrollTop := VNum 30; scrollLeft := VNum 0 |}.
Proof.
  destruct (scrollTo_sets_offsets
              (mountedAt {| scrollTop := VNum 0; scrollLeft := VNum 0 |} ∅)
              (VNum 30) VUndefined
              {| scrollTop := VNum 0; scrollLeft := VNum 0 |})
    as (this' & Hrun & _ & Hnode & _).
  - reflexivity.
  - exists this'. split; [exact Hrun | exact Hnode].
Defined.

(** Before the widget is mounted there is no node to write to. *)
Lemma scrollTo_unmounted (ps : gmap string value) (destY destX : value) :
  exists msg,
    scrollTo {| props := ps; refs := ∅ |} destY destX = Throws (TypeError msg).
Proof. eexists. reflexivity. Qed.

(** ** The methods of the class *)

(** The class body declares no [getContentOffset]. *)
Lemma classMethods_no_getContentOffset :
  "getContentOffset" ∉ classMethods.
Proof.
  unfold classMethods. rewrite !not_elem_of_cons.
  repeat split; try discriminate. apply not_elem_of_nil.
Qed.

(** ** The content container *)

Lemma render_contentContainer (this : Instance) :
  exists outer inner kids,
    render this = View SCROLLVIEW outer [View INNERVIEW inner kids]
    /\ prop inner "style" = contentContainerStyle this.
Proof.
  eexists _, _, _. split; [reflexivity |].
  unfold prop. repeat (rewrite lookup_insert_ne by discriminate).
  now rewrite lookup_insert_eq.
Qed.

(** C6, as stated, fails: the style of the content container is not
    determined by [horizontal], [centerContent], [alwaysBounceHorizontal] and
    [alwaysBounceVertical]; two widgets that agree on all four differ in it
    when their [contentContainerStyle] props differ. *)
Lemma contentContainerStyle_not_function_of_the_four_settings :
  ~ exists f : value -> value -> value -> value -> value,
      forall this : Instance,
        contentContainerStyle this
        = f (prop (props this) "horizontal")
            (prop (props this) "centerContent")
            (prop (props this) "alwaysBounceHorizontal")
            (prop (props this) "alwaysBounceVertical").
Proof.
  intros [f Hf].
  pose proof (Hf {| props := ∅; refs := ∅ |}) as H1.
  pose proof (Hf {| props := {[ "contentContainerStyle" :=
                                  VObj [("paddingVertical", VNum 20)] ]};
                    refs := ∅ |}) as H2.
  vm_compute in H1, H2. rewrite <- H1 in H2. discriminate H2.
Qed.

(** C6, amended. The style of the content container is a pure function of
    the [horizontal] setting and of the application's [contentContainerStyle]:
    the built-in [position: absolute; minWidth: 100%], then
    [alignSelf: flex-start; flexDirection: row] when [horizontal] is truthy,
    then [contentContainerStyle].  [centerContent], [alwaysBounceHorizontal]
    and [alwaysBounceVertical] have no influence on it, and without a
    [contentContainerStyle] none of the directives sets a width or a height,
    a minimal height or a maximal width or height. *)
Theorem contentContainerStyle_function_of_horizontal_and_style
    (this : Instance) :
  contentContainerStyle this
  = VArr [styles.contentContainer;
          (if truthy (prop (props this) "horizontal")
           then styles.contentContainerHorizontal
           else prop (props this) "horizontal");
          prop (props this) "contentContainerStyle"]
  /\ (forall other : Instance,
        prop (props other) "horizontal" = prop (props this) "horizontal" ->
        prop (props other) "contentContainerStyle"
        = prop (props this) "contentContainerStyle" ->
        contentContainerStyle other = contentContainerStyle this)
  /\ (forall center bounceH bounceV : value,
        contentContainerStyle
          {| props := <["centerContent" := center]>
                      (<["alwaysBounceHorizontal" := bounceH]>
                       (<["alwaysBounceVertical" := bounceV]> (props this)));
             refs := refs this |}
        = contentContainerStyle this)
  /\ (prop (props this) "contentContainerStyle" = VUndefined ->
      directives (contentContainerStyle this)
      = [("position", VStr "absolute"); ("minWidth", VStr "100%")]
        ++ (if truthy (prop (props this) "horizontal")
            then [("alignSelf", VStr "flex-start"); ("flexDirection", VStr "row")]
            else [])
      /\ forall k v,
           In k ["width"; "height"; "minHeight"; "maxWidth"; "maxHeight"] ->
           ~ In (k, v) (directives (contentContainerStyle this))).
Proof.
  split; [reflexivity |]. split; [| split].
  - intros other Hh Hs. unfold contentContainerStyle. now rewrite Hh, Hs.
  - intros center bounceH bounceV. unfold contentContainerStyle, prop. simpl.
    repeat (rewrite lookup_insert_ne by discriminate). reflexivity.
  - intros Hs.
    assert (E : directives (contentContainerStyle this)
                = [("position", VStr "absolute"); ("minWidth", VStr "100%")]
                  ++ (if truthy (prop (props this) "horizontal")
                      then [("alignSelf", VStr "flex-start");
                            ("flexDirection", VStr "row")]
                      else [])).
    { unfold contentContainerStyle, js_and. rewrite Hs.
      destruct (prop (props this) "horizontal") as [| |[]|n|s| | | | | | |n d];
        simpl; try reflexivity.
      - destruct (n =? 0); reflexivity.
      - destruct (String.eqb s ""); reflexivity.
      - destruct (n =? 0); reflexivity. }
    split; [exact E |].
    intros k v Hk Hin. rewrite E in Hin.
    destruct (truthy (prop (props this) "horizontal")); simpl in Hk, Hin;
      intuition (subst; discriminate).
Qed.

Lemma contentContainerStyle_function_of_horizontal_and_style_witness :
  directives
    (contentContainerStyle
       {| props := {[ "horizontal" := VBool true; "centerContent" := VBool true ]};
          refs := ∅ |})
  = [("position", VStr "absolute"); ("minWidth", VStr "100%");
     ("alignSelf", VStr "flex-start"); ("flexDirection", VStr "row")].
Proof.
  destruct (contentContainerStyle_function_of_horizontal_and_style
              {| props := {[ "horizontal" := VBool true;
                             "centerContent" := VBool true ]};
                 refs := ∅ |}) as (_ & _ & _ & H).
  destruct H as [H _]; [reflexivity |]. rewrite H. reflexivity.
Defined.

(** ** Scroll notifications *)

Lemma scrollHandler_zero (this : Instance) :
  prop (props this) "scrollEventThrottle" = VNum 0 ->
  scrollHandler this = FNoop.
Proof. intros H. unfold scrollHandler. now rewrite H. Qed.

Lemma scrollHandler_nonzero (this : Instance) (i : Z) (cb : nat) :
  prop (props this) "scrollEventThrottle" = VNum i -> i <> 0 ->
  prop (props this) "onScroll" = VFun (FApp cb) ->
  scrollHandler this = throttle (FMethod "handleScroll") (VNum i).
Proof.
  intros Ht Hi Hs. unfold scrollHandler, js_and. rewrite Ht, Hs. simpl.
  destruct (Z.eqb_spec i 0); [contradiction | reflexivity].
Qed.

Lemma handleScroll_calls (this : Instance) (cb : nat) (e : value) :
  prop (props this) "onScroll" = VFun (FApp cb) ->
  handleScroll this e = ([Invoke cb [e]], Normal VUndefined).
Proof. intros H. unfold handleScroll. rewrite H. reflexivity. Qed.

Section Delivery.
Variable throttleRun : value -> list (Z * value) -> list (Z * value).

Lemma calls_of_noop (this : Instance) (notifs : list (Z * value)) :
  flat_map (fun c : Z * M value => List.map (pair (fst c)) (logged (snd c)))
           (dispatch throttleRun this FNoop notifs) = [].
Proof. induction notifs; simpl; auto. Qed.

Lemma calls_of_handleScroll (this : Instance) (cb : nat)
    (notifs : list (Z * value)) :
  prop (props this) "onScroll" = VFun (FApp cb) ->
  flat_map (fun c : Z * M value => List.map (pair (fst c)) (logged (snd c)))
           (dispatch throttleRun this (FMethod "handleScroll") notifs)
  = List.map (callOf cb) notifs.
Proof.
  intros H. induction notifs as [|n rest IH]; simpl; [reflexivity|].
  rewrite (handleScroll_calls _ _ _ H). simpl in *. now rewrite IH.
Qed.

Lemma noThrow_noop (this : Instance) (notifs : list (Z * value)) :
  Forall (fun c : Z * M value => exists v, result (snd c) = Normal v)
         (dispatch throttleRun this FNoop notifs).
Proof. induction notifs; simpl; constructor; simpl; eauto. Qed.

Lemma noThrow_handleScroll (this : Instance) (cb : nat)
    (notifs : list (Z * value)) :
  prop (props this) "onScroll" = VFun (FApp cb) ->
  Forall (fun c : Z * M value => exists v, result (snd c) = Normal v)
         (dispatch throttleRun this (FMethod "handleScroll") notifs).
Proof.
  intros H. induction notifs as [|n rest IH]; simpl; constructor; auto.
  simpl. rewrite (handleScroll_calls _ _ _ H). simpl. eauto.
Qed.

Lemma deliver_noop (this : Instance) (notifs : list (Z * value)) :
  scrollHandler this = FNoop ->
  onScrollCalls throttleRun this notifs = []
  /\ noThrow throttleRun this notifs.
Proof.
  intros H. unfold onScrollCalls, noThrow, deliverScroll.
  rewrite attr_onScrollShouldSetResponder, attr_onScroll, H.
  unfold dispatchTo. split.
  - rewrite flat_map_app, !calls_of_noop. reflexivity.
  - apply Forall_app. split; apply noThrow_noop.
Qed.

Lemma deliver_throttled (this : Instance) (wait : value) (cb : nat)
    (notifs : list (Z * value)) :
  scrollHandler this = throttle (FMethod "handleScroll") wait ->
  prop (props this) "onScroll" = VFun (FApp cb) ->
  onScrollCalls throttleRun this notifs
  = List.map (callOf cb) (throttleRun wait notifs)
  /\ noThrow throttleRun this notifs.
Proof.
  intros H Hs. unfold onScrollCalls, noThrow, deliverScroll.
  rewrite attr_onScrollShouldSetResponder, attr_onScroll, H.
  unfold dispatchTo, throttle.
  change (dispatch throttleRun this (FThrottled (FMethod "handleScroll") wait) notifs)
    with (dispatch throttleRun this (FMethod "handleScroll") (throttleRun wait notifs)).
  split.
  - rewrite flat_map_app, calls_of_noop, app_nil_r.
    now apply calls_of_handleScroll.
  - apply Forall_app. split;
      [now apply (noThrow_handleScroll _ cb) | apply noThrow_noop].
Qed.
End Delivery.

(** With interval 0 and an [onScroll] callback, a scroll event that the
    widget observes is not forwarded to the callback. *)
Lemma interval_zero_event_not_forwarded :
  onScrollCalls Throttle.throttled
    {| props := {[ "scrollEventThrottle" := VNum 0;
                   "onScroll" := VFun (FApp 7) ]};
       refs := ∅ |}
    [(0, VStr "scroll")]
  <> [(0, Invoke 7 [VStr "scroll"])].
Proof. vm_compute. discriminate. Qed.

(** C1. The code does not forward every event at interval 0, as the claim
    has it, nor one event per scroll, as the documentation of
    [scrollEventThrottle] has it: while the configured throttle interval is
    0, the scroll handlers that [render] installs are both the empty
    function, and no scroll event at all is forwarded to the application's
    [onScroll] callback, however the throttle behaves. *)
Theorem interval_zero_forwards_nothing
    (throttleRun : value -> list (Z * value) -> list (Z * value))
    (this : Instance) (notifs : list (Z * value)) :
  prop (props this) "scrollEventThrottle" = VNum 0 ->
  prop (attributes (render this)) "onScrollShouldSetResponder" = VFun FNoop
  /\ prop (attributes (render this)) "onScroll" = VFun FNoop
  /\ onScrollCalls throttleRun this notifs = [].
Proof.
  intros H. pose proof (scrollHandler_zero this H) as Hh.
  rewrite attr_onScrollShouldSetResponder, attr_onScroll, Hh.
  repeat split. now apply deliver_noop.
Qed.

Lemma interval_zero_forwards_nothing_witness :
  onScrollCalls Throttle.throttled
    {| props := {[ "scrollEventThrottle" := VNum 0;
                   "onScroll" := VFun (FApp 7) ]};
       refs := ∅ |}
    [(0, VStr "first"); (40, VStr "second")]
  = [].
Proof.
  apply interval_zero_forwards_nothing. reflexivity.
Defined.

(** C2. With an [onScroll] callback and a positive throttle interval, the
    handler that receives the raw scroll notifications is the throttled
    [handleScroll]; [handleScroll] hands each event it is given to [onScroll]
    unchanged; so the calls of [onScroll] are exactly the notifications
    that the throttle lets through, and none of them throws. *)
Theorem scroll_notifications_pass_the_throttle
    (throttleRun : value -> list (Z * value) -> list (Z * value))
    (this : Instance) (cb : nat) (i : Z) (notifs : list (Z * value)) :
  prop (props this) "onScroll" = VFun (FApp cb) ->
  prop (props this) "scrollEventThrottle" = VNum i ->
  0 < i ->
  prop (attributes (render this)) "onScrollShouldSetResponder"
  = VFun (throttle (FMethod "handleScroll") (VNum i))
  /\ (forall e, handleScroll this e = ([Invoke cb [e]], Normal VUndefined))
  /\ onScrollCalls throttleRun this notifs
     = List.map (callOf cb) (throttleRun (VNum i) notifs)
  /\ noThrow throttleRun this notifs.
Proof.
  intros Hs Ht Hi.
  assert (Hh : scrollHandler this = throttle (FMethod "handleScroll") (VNum i))
    by (apply (scrollHandler_nonzero this i cb); auto; lia).
  rewrite attr_onScrollShouldSetResponder, Hh.
  split; [reflexivity |]. split; [intros e; now apply handleScroll_calls |].
  now apply deliver_throttled.
Qed.

Lemma scroll_notifications_pass_the_throttle_witness :
  onScrollCalls Throttle.throttled
    {| props := {[ "scrollEventThrottle" := VNum 100;
                   "onScroll" := VFun (FApp 7) ]};
       refs := ∅ |}
    [(0, VStr "a"); (10, VStr "b"); (20, VStr "c"); (300, VStr "d")]
  = [(0, Invoke 7 [VStr "a"]); (100, Invoke 7 [VStr "c"]);
     (300, Invoke 7 [VStr "d"])].
Proof.
  destruct (scroll_notifications_pass_the_throttle Throttle.throttled
              {| props := {[ "scrollEventThrottle" := VNum 100;
                             "onScroll" := VFun (FApp 7) ]};
                 refs := ∅ |}
              7 100
              [(0, VStr "a"); (10, VStr "b"); (20, VStr "c"); (300, VStr "d")])
    as (_ & _ & H & _); [reflexivity | reflexivity | lia |].
  rewrite H. reflexivity.
Defined.

(** C3. With an [onScroll] callback and a positive throttle interval [i],
    under the throttle contract: an event that arrives when no call has been
    forwarded during the last [i] milliseconds, in particular one that
    arrives at least [2 * i] milliseconds after every earlier event, is
    forwarded at once; no window of [i] milliseconds contains more than one
    forwarded call; and an event that is followed by no other within [i]
    milliseconds is forwarded at some time between its arrival and [i]
    milliseconds later. *)
Theorem throttled_scroll_guarantees (this : Instance) (cb : nat) (i : Z) :
  prop (props this) "onScroll" = VFun (FApp cb) ->
  prop (props this) "scrollEventThrottle" = VNum i ->
  0 < i ->
  (forall pre t e post,
      Forall (fun c => fst c + i <= t)
             (onScrollCalls Throttle.throttled this pre) ->
      exists rest,
        onScrollCalls Throttle.throttled this (pre ++ (t, e) :: post)
        = onScrollCalls Throttle.throttled this pre
          ++ (t, Invoke cb [e]) :: rest)
  /\ (forall pre t e post,
        Throttle.chronological pre ->
        Forall (fun n => fst n + 2 * i <= t) pre ->
        exists rest,
          onScrollCalls Throttle.throttled this (pre ++ (t, e) :: post)
          = onScrollCalls Throttle.throttled this pre
            ++ (t, Invoke cb [e]) :: rest)
  /\ (forall notifs x,
        (length (Throttle.within x i
                   (onScrollCalls Throttle.throttled this notifs)) <= 1)%nat)
  /\ (forall pre t e post,
        Throttle.chronological (pre ++ [(t, e)]) ->
        Forall (fun n => t + i < fst n) post ->
        exists f,
          t <= f <= t + i
          /\ In (f, Invoke cb [e])
                (onScrollCalls Throttle.throttled this (pre ++ (t, e) :: post))).
Proof.
  intros Hs Ht Hi.
  assert (Hcalls : forall notifs,
             onScrollCalls Throttle.throttled this notifs
             = List.map (callOf cb) (Throttle.run (Throttle.create i) notifs)).
  { intros notifs.
    apply (deliver_throttled Throttle.throttled this (VNum i) cb notifs);
      [| exact Hs].
    apply (scrollHandler_nonzero this i cb); auto. lia. }
  assert (Hquiet : forall pre t e post,
             Forall (fun c => fst c + i <= t)
                    (Throttle.run (Throttle.create i) pre) ->
             exists rest,
               onScrollCalls Throttle.throttled this (pre ++ (t, e) :: post)
               = onScrollCalls Throttle.throttled this pre
                 ++ (t, Invoke cb [e]) :: rest).
  { intros pre t e post Hq. rewrite !Hcalls.
    destruct (ThrottleFacts.run_first_after_quiet i pre post t e Hi Hq)
      as [rest Hr].
    exists (List.map (callOf cb) rest). rewrite Hr, List.map_app. reflexivity. }
  split; [| split; [| split]].
  - intros pre t e post Hq. apply Hquiet.
    rewrite Hcalls, Forall_map in Hq. exact Hq.
  - intros pre t e post Hc Hall. apply Hquiet.
    now apply ThrottleFacts.run_quiet_after_events.
  - intros notifs x. rewrite Hcalls.
    unfold callOf. rewrite (ThrottleFacts.within_map (fun e => Invoke cb [e])).
    rewrite length_map. now apply ThrottleFacts.run_window.
  - intros pre t e post Hc Hpost. rewrite Hcalls.
    destruct (ThrottleFacts.run_last_of_burst i pre post t e Hi Hc Hpost)
      as (f & Hf & Hin).
    exists f. split; [exact Hf |].
    apply (in_map (callOf cb)) in Hin. exact Hin.
Qed.

Lemma throttled_scroll_guarantees_witness :
  let this := {| props := {[ "scrollEventThrottle" := VNum 100;
                            "onScroll" := VFun (FApp 7) ]};
                 refs := ∅ |} in
  let burst := [(0, VStr "a"); (10, VStr "b"); (20, VStr "c")] in
  (exists rest,
      onScrollCalls Throttle.throttled this (burst ++ [(500, VStr "z")])
      = onScrollCalls Throttle.throttled this burst
        ++ (500, Invoke 7 [VStr "z"]) :: rest)
  /\ (exists rest,
        onScrollCalls Throttle.throttled this (burst ++ [(220, VStr "y")])
        = onScrollCalls Throttle.throttled this burst
          ++ (220, Invoke 7 [VStr "y"]) :: rest)
  /\ (length (Throttle.within 0 100
                (onScrollCalls Throttle.throttled this burst)) <= 1)%nat
  /\ (exists f, 20 <= f <= 120
                /\ In (f, Invoke 7 [VStr "c"])
                      (onScrollCalls Throttle.throttled this burst)).
Proof.
  intros this burst.
  destruct (throttled_scroll_guarantees this 7 100)
    as (Ha & Ha' & Hb & Hc); [reflexivity | reflexivity | lia |].
  split; [| split; [| split]].
  - apply (Ha burst 500 (VStr "z") []).
    assert (E : onScrollCalls Throttle.throttled this burst
                = [(0, Invoke 7 [VStr "a"]); (100, Invoke 7 [VStr "c"])])
      by (vm_compute; reflexivity).
    rewrite E. repeat constructor; simpl; lia.
  - apply (Ha' burst 220 (VStr "y") []).
    + simpl. lia.
    + repeat constructor; simpl; lia.
  - apply Hb.
  - apply (Hc [(0, VStr "a"); (10, VStr "b")] 20 (VStr "c") []).
    + simpl. lia.
    + constructor.
Defined.



End ScrollViewFacts.

(** * Properties of the responder arbiter *)

Module ResponderFacts.
Import Responder.

Lemma consistent_update (σ : System) (w : nat) (s1 : ResponderState)
    (owner' : option nat) :
  consistent σ ->
  (phase s1 = Active <-> owner' = Some w) ->
  (forall w', w' <> w -> (ownerId σ = Some w' <-> owner' = Some w')) ->
  consistent {| widgets := <[w := s1]> (widgets σ); ownerId := owner' |}.
Proof.
  intros Hc H1 H2 w' s'. simpl.
  destruct (decide (w' = w)) as [-> | Hne].
  - rewrite lookup_insert_eq. intros [= <-]. exact H1.
  - rewrite lookup_insert_ne by congruence. intros Hl.
    rewrite (Hc _ _ Hl). now apply H2.
Qed.

Lemma mount_consistent (ps : gmap nat Policy) : consistent (mount ps).
Proof.
  intros w s. unfold mount. simpl. rewrite lookup_fmap.
  destruct (ps !! w); simpl; [| discriminate].
  intros [= <-]. simpl. split; discriminate.
Qed.

Lemma requestTerminate_consistent (σ : System) (o : nat) :
  consistent σ -> consistent (fst (fst (requestTerminate σ o))).
Proof.
  intros Hc. unfold requestTerminate.
  destruct (widgets σ !! o) as [s |] eqn:Ho; [| exact Hc].
  destruct (phase s) eqn:Hph; try exact Hc.
  destruct (allowsTermination (policy s)); [| exact Hc].
  simpl. apply consistent_update; [exact Hc | simpl; split; discriminate |].
  intros w' Hne. pose proof (proj1 (Hc _ _ Ho) Hph) as Hown.
  rewrite Hown. split; [congruence | discriminate].
Qed.

Lemma requestTerminate_yields (σ : System) (o : nat) :
  snd (requestTerminate σ o) = true ->
  ownerId (fst (fst (requestTerminate σ o))) = None
  /\ snd (fst (requestTerminate σ o)) = [(o, onResponderTerminate)].
Proof.
  unfold requestTerminate.
  destruct (widgets σ !! o) as [s |]; [| discriminate].
  destruct (phase s); try discriminate.
  destruct (allowsTermination (policy s)); [| discriminate].
  simpl. auto.
Qed.

Lemma tryClaim_consistent (σ : System) (w : nat) (s : ResponderState) :
  consistent σ -> widgets σ !! w = Some s -> phase s = Claiming ->
  consistent (fst (tryClaim σ w s)).
Proof.
  intros Hc Hw Hph. unfold tryClaim.
  assert (Hnot : ownerId σ <> Some w).
  { intros Hown. apply (Hc _ _ Hw) in Hown. congruence. }
  destruct (ownerId σ) as [o |] eqn:Hown.
  - pose proof (requestTerminate_consistent σ o Hc) as Hc'.
    pose proof (requestTerminate_yields σ o) as Hy.
    destruct (requestTerminate σ o) as [[σ' told] yielded]. simpl in *.
    destruct yielded.
    + destruct (Hy eq_refl) as [Hnone _]. simpl.
      apply consistent_update; [exact Hc' | simpl; tauto |].
      intros w' Hne. rewrite Hnone. split; [discriminate | congruence].
    + simpl. apply consistent_update; [exact Hc | simpl; split; [discriminate|] |].
      * rewrite Hown. congruence.
      * intros w' _. tauto.
  - simpl. apply consistent_update; [exact Hc | simpl; tauto |].
    intros w' Hne. rewrite Hown. split; [discriminate | congruence].
Qed.

Lemma step_consistent (threshold : Z) (σ : System) (ev : TouchEvent) :
  consistent σ -> consistent (fst (step threshold σ ev)).
Proof.
  intros Hc.
  destruct ev as [w position timestamp | w position timestamp | w]; simpl;
    (destruct (widgets σ !! w) as [s |] eqn:Hw; [| exact Hc]);
    destruct (phase s) eqn:Hph; try exact Hc.
  - destruct (scrollEnabled (policy s)); [| exact Hc]. simpl.
    apply consistent_update; [exact Hc | simpl; split; [discriminate|] |].
    + intros Hown. apply (Hc _ _ Hw) in Hown. congruence.
    + intros w' _. tauto.
  - destruct (exceeds threshold (touchStartPosition s) position); [| exact Hc].
    now apply tryClaim_consistent.
  - destruct (negb (isDragging s) && exceeds threshold (touchStartPosition s) position);
      [| exact Hc].
    simpl. apply consistent_update; [exact Hc | simpl |].
    + rewrite <- (Hc _ _ Hw). tauto.
    + intros w' _. tauto.
  - simpl. apply consistent_update; [exact Hc | simpl; split; [discriminate|] |].
    + intros Hown. apply (Hc _ _ Hw) in Hown. congruence.
    + intros w' _. tauto.
  - unfold release. simpl.
    apply consistent_update; [exact Hc | simpl; split; discriminate |].
    intros w' Hne. rewrite (proj1 (Hc _ _ Hw) Hph).
    split; [congruence | discriminate].
Qed.

Lemma run_consistent (threshold : Z) (evs : list TouchEvent) : forall σ,
  consistent σ -> consistent (fst (run threshold σ evs)).
Proof.
  induction evs as [| ev rest IH]; intros σ Hc; simpl; [exact Hc |].
  pose proof (step_consistent threshold σ ev Hc) as Hc1.
  destruct (step threshold σ ev) as [σ1 told1]. simpl in Hc1.
  specialize (IH σ1 Hc1). now destruct (run threshold σ1 rest).
Qed.

Lemma consistent_exclusive (σ : System) (w1 w2 : nat) :
  consistent σ -> holdsActive σ w1 -> holdsActive σ w2 -> w1 = w2.
Proof.
  intros Hc (s1 & Hw1 & Hp1) (s2 & Hw2 & Hp2).
  apply (Hc _ _ Hw1) in Hp1. apply (Hc _ _ Hw2) in Hp2. congruence.
Qed.

Lemma holdsActive_elsewhere (σ : System) (w w0 : nat) (s1 : ResponderState)
    (owner' : option nat) :
  w <> w0 -> holdsActive σ w ->
  holdsActive {| widgets := <[w0 := s1]> (widgets σ); ownerId := owner' |} w.
Proof.
  intros Hne (s & Hw & Hp). exists s. simpl.
  rewrite lookup_insert_ne by congruence. auto.
Qed.

Lemma holdsActive_here (σ : System) (w : nat) (s1 : ResponderState)
    (owner' : option nat) :
  phase s1 = Active ->
  holdsActive {| widgets := <[w := s1]> (widgets σ); ownerId := owner' |} w.
Proof.
  intros Hp. exists s1. simpl. rewrite lookup_insert_eq. auto.
Qed.

Lemma holdsActive_other_phase (σ : System) (w w0 : nat) (s : ResponderState) :
  holdsActive σ w -> widgets σ !! w0 = Some s -> phase s <> Active -> w <> w0.
Proof.
  intros (sw & Hw & Hp) Hw0 Hne ->. congruence.
Qed.

(** A step takes ownership from a widget only by terminating it, unless the
    step is the end of that widget's own touch, which releases it. *)
Lemma step_never_silent (threshold : Z) (σ : System) (ev : TouchEvent)
    (w : nat) :
  consistent σ -> holdsActive σ w ->
  ~ holdsActive (fst (step threshold σ ev)) w ->
  In (w, onResponderTerminate) (snd (step threshold σ ev))
  \/ (ev = TouchEnd w
      /\ In (w, onResponderRelease) (snd (step threshold σ ev))).
Proof.
  intros Hc Ha Hlost.
  destruct ev as [w0 position timestamp | w0 position timestamp | w0];
    simpl in *;
    (destruct (widgets σ !! w0) as [s |] eqn:Hw; [| contradiction]);
    destruct (phase s) eqn:Hph; try contradiction.
  - destruct (scrollEnabled (policy s)); [| contradiction].
    exfalso. apply Hlost. simpl. apply holdsActive_elsewhere; [| exact Ha].
    apply (holdsActive_other_phase σ w w0 s); auto. congruence.
  - destruct (exceeds threshold (touchStartPosition s) position);
      [| contradiction].
    assert (Hne : w <> w0)
      by (apply (holdsActive_other_phase σ w w0 s); auto; congruence).
    pose proof Ha as (sw & Hsw & Hpw).
    pose proof (proj1 (Hc _ _ Hsw) Hpw) as Hown.
    unfold tryClaim, requestTerminate in *. rewrite Hown, Hsw, Hpw in *.
    destruct (allowsTermination (policy sw)); simpl in *.
    + left. auto.
    + exfalso. apply Hlost. now apply holdsActive_elsewhere.
  - destruct (negb (isDragging s)
              && exceeds threshold (touchStartPosition s) position);
      [| contradiction].
    exfalso. apply Hlost. simpl.
    destruct (decide (w = w0)) as [-> | Hne].
    + now apply holdsActive_here.
    + now apply holdsActive_elsewhere.
  - exfalso. apply Hlost. simpl. apply holdsActive_elsewhere; [| exact Ha].
    apply (holdsActive_other_phase σ w w0 s); auto. congruence.
  - assert (w = w0) as ->.
    { apply (consistent_exclusive σ); auto. exists s. auto. }
    right. split; [reflexivity |].
    unfold release. simpl. apply in_or_app. right. left. reflexivity.
Qed.

(** C4. From the state in which every widget has just been mounted, after
    every sequence of touch-start, touch-move and touch-end events addressed
    to any of the widgets: at most one widget holds [Active] ownership, and a
    further event takes ownership from a widget only with an
    [onResponderTerminate] notification to it, unless the event is the end of
    that widget's own touch, which releases it with [onResponderRelease]. *)
Theorem responder_exclusive_and_never_silently_lost
    (threshold : Z) (ps : gmap nat Policy) (evs : list TouchEvent) :
  (forall w1 w2,
      holdsActive (fst (run threshold (mount ps) evs)) w1 ->
      holdsActive (fst (run threshold (mount ps) evs)) w2 ->
      w1 = w2)
  /\ (forall ev w,
        holdsActive (fst (run threshold (mount ps) evs)) w ->
        ~ holdsActive
            (fst (step threshold (fst (run threshold (mount ps) evs)) ev)) w ->
        In (w, onResponderTerminate)
           (snd (step threshold (fst (run threshold (mount ps) evs)) ev))
        \/ (ev = TouchEnd w
            /\ In (w, onResponderRelease)
                  (snd (step threshold (fst (run threshold (mount ps) evs)) ev)))).
Proof.
  pose proof (run_consistent threshold evs (mount ps) (mount_consistent ps))
    as Hc.
  split.
  - intros w1 w2. now apply consistent_exclusive.
  - intros ev w. now apply step_never_silent.
Qed.

(** Two widgets with the default policy: the first claims the gesture, the
    second claims it next; the first is terminated before the second is
    granted, and the second then holds the slot. *)
Example takeover_scenario :
  let ps : gmap nat Policy :=
    {[ 1%nat := {| scrollEnabled := true; allowsTermination := true |};
       2%nat := {| scrollEnabled := true; allowsTermination := true |} ]} in
  let '(σ, told) :=
    run 5 (mount ps)
        [TouchStart 1 (0, 0) 0; TouchMove 1 (0, 9) 10;
         TouchStart 2 (50, 50) 20; TouchMove 2 (60, 50) 30] in
  told = [(1%nat, onResponderGrant); (1%nat, onResponderTerminate);
          (2%nat, onResponderGrant)]
  /\ ownerId σ = Some 2%nat
  /\ (phase <$> widgets σ !! 1%nat) = Some Idle
  /\ (phase <$> widgets σ !! 2%nat) = Some Active.
Proof. vm_compute. repeat split. Qed.

(** A tap never starts a drag, and an owner that does not yield keeps the
    slot: the claimant is rejected. *)
Example rejection_scenario :
  let ps : gmap nat Policy :=
    {[ 1%nat := {| scrollEnabled := true; allowsTermination := false |};
       2%nat := {| scrollEnabled := true; allowsTermination := true |} ]} in
  let '(σ, told) :=
    run 5 (mount ps)
        [TouchStart 1 (0, 0) 0; TouchMove 1 (0, 9) 10; TouchMove 1 (0, 30) 15;
         TouchStart 2 (50, 50) 20; TouchMove 2 (60, 50) 30;
         TouchEnd 2; TouchEnd 1] in
  told = [(1%nat, onResponderGrant); (1%nat, onScrollBeginDrag);
          (2%nat, onResponderReject);
          (1%nat, onScrollEndDrag); (1%nat, onResponderRelease)]
  /\ ownerId σ = None.
Proof. vm_compute. repeat split. Qed.

End ResponderFacts.

(** * Further properties of the component *)

Module ScrollViewExtra.
Import ScrollView ScrollViewTables.

Ltac read_outer :=
  unfold prop, render, attributes, outerProps;
  try (rewrite lookup_delete_ne by congruence);
  repeat (rewrite lookup_insert_ne by congruence);
  try rewrite lookup_insert_eq; try reflexivity.

(** ** Imperative scrolling *)

Lemma js_or_number (n : Z) : js_or (VNum n) (VNum 0) = VNum n.
Proof.
  unfold js_or. simpl. destruct (Z.eqb_spec n 0); [subst |]; reflexivity.
Qed.

Lemma js_or_zero_defined (v : value) :
  truthy (js_or v (VNum 0)) = true \/ js_or v (VNum 0) = VNum 0.
Proof. unfold js_or. destruct (truthy v) eqn:E; auto. Qed.

Lemma scrollTo_result (this this' : Instance) (destY destX : value) :
  scrollTo this destY destX = Normal this' ->
  is_Some (refs this !! SCROLLVIEW)
  /\ this' = {| props := props this;
               refs := <[SCROLLVIEW := {| scrollTop := js_or destY (VNum 0);
                                          scrollLeft := js_or destX (VNum 0) |}]>
                         (refs this) |}.
Proof.
  unfold scrollTo, scrollWithoutAnimationTo.
  destruct (refs this !! SCROLLVIEW) as [node |]; [| discriminate].
  intros [= <-]. split; [eauto | reflexivity].
Qed.

(** X1. Before the outer view is mounted, [scrollTo] and
    [scrollWithoutAnimationTo] throw a [TypeError], whatever the arguments. *)
Theorem scrollTo_before_mount (this : Instance) (destY destX : value) :
  refs this !! SCROLLVIEW = None ->
  exists msg,
    scrollTo this destY destX = Throws (TypeError msg)
    /\ scrollWithoutAnimationTo this destY destX = Throws (TypeError msg).
Proof.
  intros H. unfold scrollTo, scrollWithoutAnimationTo. rewrite H.
  eexists. split; reflexivity.
Qed.

Lemma scrollTo_before_mount_witness :
  exists msg,
    scrollTo {| props := {[ "horizontal" := VBool true ]}; refs := ∅ |}
             (VNum 10) (VNum 20)
    = Throws (TypeError msg).
Proof.
  destruct (scrollTo_before_mount
              {| props := {[ "horizontal" := VBool true ]}; refs := ∅ |}
              (VNum 10) (VNum 20)) as (msg & H & _).
  - reflexivity.
  - exists msg. exact H.
Defined.

(** X2. Two calls of [scrollTo] in a row leave the widget as the second call
    alone does: the last write wins. *)
Theorem scrollTo_last_wins (this this1 : Instance) (y1 x1 y2 x2 : value) :
  scrollTo this y1 x1 = Normal this1 ->
  scrollTo this1 y2 x2 = scrollTo this y2 x2.
Proof.
  intros H. apply scrollTo_result in H as [[node Hnode] ->].
  unfold scrollTo, scrollWithoutAnimationTo. simpl.
  rewrite lookup_insert_eq, Hnode. simpl.
  now rewrite insert_insert_eq.
Qed.

Lemma scrollTo_last_wins_witness :
  scrollTo (mountedAt {| scrollTop := VNum 5; scrollLeft := VNum 6 |} ∅)
           (VNum 7) VUndefined
  = scrollTo (mountedAt {| scrollTop := VNum 0; scrollLeft := VNum 0 |} ∅)
             (VNum 7) VUndefined.
Proof.
  apply (scrollTo_last_wins _ _ (VNum 5) (VNum 6)).
  vm_compute. reflexivity.
Defined.

(** X3. For numeric arguments the offsets written are the numbers given,
    zero and negative numbers included, except for the falsy numbers: [NaN]
    and -0 are written as 0, as 0 itself is. *)
Theorem scrollTo_numbers (this : Instance) (node : DomNode) :
  refs this !! SCROLLVIEW = Some node ->
  (forall y x : Z,
      exists this',
        scrollTo this (VNum y) (VNum x) = Normal this'
        /\ refs this' !! SCROLLVIEW
           = Some {| scrollTop := VNum y; scrollLeft := VNum x |})
  /\ (forall y x : value,
        isNumber y = true -> isNumber x = true ->
        truthy y = true -> truthy x = true ->
        exists this',
          scrollTo this y x = Normal this'
          /\ refs this' !! SCROLLVIEW
             = Some {| scrollTop := y; scrollLeft := x |})
  /\ (exists this',
        scrollTo this VNaN VNegZero = Normal this'
        /\ refs this' !! SCROLLVIEW
           = Some {| scrollTop := VNum 0; scrollLeft := VNum 0 |}).
Proof.
  intros H. unfold scrollTo, scrollWithoutAnimationTo. rewrite H.
  split; [| split].
  - intros y x. eexists. split; [reflexivity |]. simpl.
    now rewrite lookup_insert_eq, !js_or_number.
  - intros y x _ _ Hy Hx. eexists. split; [reflexivity |]. simpl.
    unfold js_or. now rewrite lookup_insert_eq, Hy, Hx.
  - eexists. split; [reflexivity |]. simpl. now rewrite lookup_insert_eq.
Qed.

Lemma scrollTo_numbers_witness :
  (exists this',
      scrollTo (mountedAt {| scrollTop := VNum 3; scrollLeft := VNum 4 |} ∅)
               (VNum 0) (VNum (-8)) = Normal this'
      /\ refs this' !! SCROLLVIEW
         = Some {| scrollTop := VNum 0; scrollLeft := VNum (-8) |})
  /\ (exists this',
        scrollTo (mountedAt {| scrollTop := VNum 3; scrollLeft := VNum 4 |} ∅)
                 (VFrac 3 2) (VInfinity false) = Normal this'
        /\ refs this' !! SCROLLVIEW
           = Some {| scrollTop := VFrac 3 2; scrollLeft := VInfinity false |})
  /\ (exists this',
        scrollTo (mountedAt {| scrollTop := VNum 3; scrollLeft := VNum 4 |} ∅)
                 VNaN VNegZero = Normal this'
        /\ refs this' !! SCROLLVIEW
           = Some {| scrollTop := VNum 0; scrollLeft := VNum 0 |}).
Proof.
  destruct (scrollTo_numbers
              (mountedAt {| scrollTop := VNum 3; scrollLeft := VNum 4 |} ∅)
              {| scrollTop := VNum 3; scrollLeft := VNum 4 |})
    as (Hint & Hnum & Hfalsy); [reflexivity |].
  split; [apply Hint |]. split; [| exact Hfalsy].
  apply Hnum; reflexivity.
Defined.

(** X4. After a successful [scrollTo] neither offset of the node holds a
    falsy value other than the number 0: an argument that is missing, [null],
    [false] or the empty string is written as 0. *)
Theorem scrollTo_offsets_defined (this this' : Instance) (destY destX : value) :
  scrollTo this destY destX = Normal this' ->
  exists node,
    refs this' !! SCROLLVIEW = Some node
    /\ (truthy (scrollTop node) = true \/ scrollTop node = VNum 0)
    /\ (truthy (scrollLeft node) = true \/ scrollLeft node = VNum 0)
    /\ (truthy destY = false -> scrollTop node = VNum 0)
    /\ (truthy destX = false -> scrollLeft node = VNum 0).
Proof.
  intros H. apply scrollTo_result in H as [_ ->]. simpl.
  eexists. split; [apply lookup_insert_eq |]. simpl.
  split; [apply js_or_zero_defined |]. split; [apply js_or_zero_defined |].
  unfold js_or. split; intros ->; reflexivity.
Qed.

Lemma scrollTo_offsets_defined_witness :
  exists node,
    refs (mountedAt {| scrollTop := VNum 0; scrollLeft := VNum 0 |} ∅)
      !! SCROLLVIEW = Some node
    /\ scrollTop node = VNum 0 /\ scrollLeft node = VNum 0.
Proof.
  destruct (scrollTo_offsets_defined
              (mountedAt {| scrollTop := VNum 9; scrollLeft := VNum 9 |} ∅)
              (mountedAt {| scrollTop := VNum 0; scrollLeft := VNum 0 |} ∅)
              VUndefined VNull)
    as (node & Hnode & _ & _ & Hy & Hx).
  - vm_compute. reflexivity.
  - exists node. split; [exact Hnode |]. split; [apply Hy | apply Hx]; reflexivity.
Defined.

(** X5. A successful [scrollTo] changes nothing but the offsets of the outer
    node: the props, the inner view node, what [render] returns and what
    [handleScroll] does stay as they were. *)
Theorem scrollTo_frame (this this' : Instance) (destY destX : value) :
  scrollTo this destY destX = Normal this' ->
  props this' = props this
  /\ getInnerViewNode this' = getInnerViewNode this
  /\ render this' = render this
  /\ (forall e, handleScroll this' e = handleScroll this e).
Proof.
  intros H. apply scrollTo_result in H as [_ ->].
  split; [reflexivity |]. split; [| split; [reflexivity | reflexivity]].
  unfold getInnerViewNode. simpl. apply lookup_insert_ne. discriminate.
Qed.

Lemma scrollTo_frame_witness :
  getInnerViewNode
    {| props := {[ "onScroll" := VFun (FApp 1) ]};
       refs := {[ SCROLLVIEW := {| scrollTop := VNum 40; scrollLeft := VNum 0 |};
                  INNERVIEW := {| scrollTop := VNum 1; scrollLeft := VNum 2 |} ]} |}
  = Some {| scrollTop := VNum 1; scrollLeft := VNum 2 |}.
Proof.
  destruct (scrollTo_frame
              {| props := {[ "onScroll" := VFun (FApp 1) ]};
                 refs := {[ SCROLLVIEW := {| scrollTop := VNum 0; scrollLeft := VNum 0 |};
                            INNERVIEW := {| scrollTop := VNum 1; scrollLeft := VNum 2 |} ]} |}
              {| props := {[ "onScroll" := VFun (FApp 1) ]};
                 refs := {[ SCROLLVIEW := {| scrollTop := VNum 40; scrollLeft := VNum 0 |};
                            INNERVIEW := {| scrollTop := VNum 1; scrollLeft := VNum 2 |} ]} |}
              (VNum 40) (VNum 0))
    as (_ & Hin & _).
  - vm_compute. reflexivity.
  - rewrite Hin. reflexivity.
Defined.

(** ** The props of the outer view *)

(** X6. A prop other than [children] that the object literal of [render]
    does not write reaches the outer view as the application gave it: the
    spread passes it through.  The [children] of the widget are not handed to
    the outer view: its only child is the content container. *)
Theorem render_passes_other_props (this : Instance) :
  (forall k : string,
      k ∉ renderKeys -> k <> "children" ->
      prop (attributes (render this)) k = prop (props this) k)
  /\ prop (attributes (render this)) "children" = VUndefined
  /\ exists outer, render this = View SCROLLVIEW outer [contentContainer this].
Proof.
  split; [| split].
  - intros k. unfold renderKeys. rewrite !not_elem_of_cons. intros Hk Hc.
    destruct_and!. read_outer.
  - unfold prop, render, attributes. now rewrite lookup_delete_eq.
  - eexists. reflexivity.
Qed.

Lemma render_passes_other_props_witness :
  prop (attributes
          (render {| props := {[ "pagingEnabled" := VBool true;
                                 "children" := VStr "rows" ]};
                     refs := ∅ |})) "pagingEnabled"
  = VBool true
  /\ prop (attributes
             (render {| props := {[ "pagingEnabled" := VBool true;
                                    "children" := VStr "rows" ]};
                        refs := ∅ |})) "children"
     = VUndefined.
Proof.
  destruct (render_passes_other_props
              {| props := {[ "pagingEnabled" := VBool true;
                             "children" := VStr "rows" ]};
                 refs := ∅ |}) as (Hpass & Hchildren & _).
  split; [| exact Hchildren].
  rewrite Hpass; [reflexivity | | discriminate].
  unfold renderKeys. rewrite !not_elem_of_cons.
  repeat split; try discriminate. apply not_elem_of_nil.
Defined.

(** X7. The touch, drag, momentum and responder handlers of the outer view
    are always the methods of the responder mixin: what the application
    passes under one of these keys never reaches the view. *)
Theorem render_binds_responder_handlers (this : Instance)
    (key method : string) :
  In (key, method) responderHandlers ->
  prop (attributes (render this)) key = VFun (FMethod method).
Proof.
  unfold responderHandlers. simpl. intros H.
  repeat (destruct H as [[= <- <-] | H]; [read_outer |]).
  contradiction.
Qed.

Lemma render_binds_responder_handlers_witness :
  prop (attributes
          (render {| props := {[ "onTouchStart" := VFun (FApp 3) ]};
                     refs := ∅ |})) "onTouchStart"
  = VFun (FMethod "scrollResponderHandleTouchStart").
Proof.
  apply render_binds_responder_handlers. simpl. auto.
Defined.

(** X8. Of the declared props, [render] replaces only
    [alwaysBounceHorizontal], [alwaysBounceVertical] and [onScroll]; every
    other declared prop reaches the outer view unchanged. *)
Theorem render_keeps_declared_props (this : Instance) (name : string)
    (type : PropType) :
  In (name, type) propTypes ->
  ~ In name ["alwaysBounceHorizontal"; "alwaysBounceVertical"; "onScroll"] ->
  prop (attributes (render this)) name = prop (props this) name.
Proof.
  unfold propTypes. simpl. intros H Hn.
  repeat (destruct H as [[= <- <-] | H]; [try read_outer; tauto |]).
  contradiction.
Qed.

Lemma render_keeps_declared_props_witness :
  prop (attributes
          (render {| props := {[ "scrollEventThrottle" := VNum 16 ]};
                     refs := ∅ |})) "scrollEventThrottle"
  = VNum 16.
Proof.
  rewrite (render_keeps_declared_props _ "scrollEventThrottle" PNumber).
  - reflexivity.
  - simpl. tauto.
  - simpl. intuition discriminate.
Defined.

Lemma truthy_js_and (a b : value) :
  truthy (js_and a b) = truthy a && truthy b.
Proof. unfold js_and. destruct (truthy a) eqn:E; simpl; auto. Qed.

(** X9. The scroll handler that [render] installs is the empty function
    exactly when [scrollEventThrottle] or [onScroll] is falsy; otherwise it is
    [handleScroll] wrapped by [throttle] with the interval as configured.
    The [onScroll] attribute of the view is the empty function in every
    case, so the application's callback is never attached to the view
    itself. *)
Theorem scroll_handler_characterised (this : Instance) :
  (scrollHandler this = FNoop
   <-> truthy (prop (props this) "scrollEventThrottle") = false
       \/ truthy (prop (props this) "onScroll") = false)
  /\ (scrollHandler this <> FNoop ->
      scrollHandler this
      = throttle (FMethod "handleScroll")
                 (prop (props this) "scrollEventThrottle"))
  /\ prop (attributes (render this)) "onScrollShouldSetResponder"
     = VFun (scrollHandler this)
  /\ prop (attributes (render this)) "onScroll" = VFun FNoop.
Proof.
  assert (Hs : prop (attributes (render this)) "onScrollShouldSetResponder"
               = VFun (scrollHandler this)) by read_outer.
  assert (Ho : prop (attributes (render this)) "onScroll" = VFun FNoop)
    by read_outer.
  split; [| split; [| split; assumption]].
  - unfold scrollHandler. rewrite truthy_js_and.
    destruct (truthy (prop (props this) "scrollEventThrottle")),
             (truthy (prop (props this) "onScroll")); simpl;
      split; auto; try discriminate; intros [H | H]; discriminate H.
  - unfold scrollHandler.
    destruct (truthy (js_and _ _)); [reflexivity | contradiction].
Qed.

(** ** The content container *)

(** X10. The directives of the content container are the built-in ones
    followed by those of the application's [contentContainerStyle], so that
    the application's directives come last; the same holds for the outer
    view, whose built-in directives are those of [styles.base]. *)
Theorem application_styles_come_last (this : Instance) :
  directives (contentContainerStyle this)
  = [("position", VStr "absolute"); ("minWidth", VStr "100%")]
    ++ (if truthy (prop (props this) "horizontal")
        then [("alignSelf", VStr "flex-start"); ("flexDirection", VStr "row")]
        else [])
    ++ directives (prop (props this) "contentContainerStyle")
  /\ directives (prop (attributes (render this)) "style")
     = [("overflow", VStr "scroll"); ("WebkitOverflowScrolling", VStr "touch");
        ("flex", VNum 1)]
       ++ directives (prop (props this) "style").
Proof.
  split.
  - unfold contentContainerStyle, js_and.
    destruct (prop (props this) "horizontal") as [| |[]|n|s| | | | | | |n d];
      simpl; rewrite ?app_nil_r; try reflexivity.
    + destruct (n =? 0); simpl; rewrite ?app_nil_r; reflexivity.
    + destruct (String.eqb s ""); simpl; rewrite ?app_nil_r; reflexivity.
    + destruct (n =? 0); simpl; rewrite ?app_nil_r; reflexivity.
  - assert (E : prop (attributes (render this)) "style"
                = VArr [styles.base; prop (props this) "style"])
      by read_outer.
    rewrite E. simpl. now rewrite app_nil_r.
Qed.

(** X11. [render] returns the outer view with the content container as its
    only child and the children of the widget inside the container.  The
    container gets a style, [removeClippedSubviews] as configured and
    [collapsable = false], and nothing else: no other prop of the widget
    leaks into it. *)
Theorem content_container_attributes (this : Instance) :
  exists inner,
    render this
    = View SCROLLVIEW (attributes (render this))
           [View INNERVIEW inner [Children (prop (props this) "children")]]
    /\ prop inner "style" = contentContainerStyle this
    /\ prop inner "removeClippedSubviews"
       = prop (props this) "removeClippedSubviews"
    /\ prop inner "collapsable" = VBool false
    /\ (forall k, k ∉ contentContainerKeys -> prop inner k = VUndefined).
Proof.
  eexists. split; [reflexivity |].
  unfold prop. split; [| split; [| split]].
  - repeat (rewrite lookup_insert_ne by discriminate).
    now rewrite lookup_insert_eq.
  - rewrite lookup_insert_ne by discriminate. now rewrite lookup_insert_eq.
  - now rewrite lookup_insert_eq.
  - intros k. unfold contentContainerKeys. rewrite !not_elem_of_cons.
    intros Hk. destruct_and!.
    repeat (rewrite lookup_insert_ne by congruence).
    now rewrite lookup_empty.
Qed.

(** ** The bounce flags *)

(** X12. The rendered [alwaysBounceVertical] is never [undefined], and the
    rendered [alwaysBounceHorizontal] is [undefined] only when both the prop
    and [horizontal] are.  When neither flag is given, exactly one of the two
    rendered flags is truthy: the horizontal one if [horizontal] is truthy,
    the vertical one otherwise. *)
Theorem bounce_flags_shape (this : Instance) :
  prop (attributes (render this)) "alwaysBounceVertical" <> VUndefined
  /\ (prop (attributes (render this)) "alwaysBounceHorizontal" = VUndefined
      <-> prop (props this) "alwaysBounceHorizontal" = VUndefined
          /\ prop (props this) "horizontal" = VUndefined)
  /\ (prop (props this) "alwaysBounceHorizontal" = VUndefined ->
      prop (props this) "alwaysBounceVertical" = VUndefined ->
      truthy (prop (attributes (render this)) "alwaysBounceHorizontal")
      = truthy (prop (props this) "horizontal")
      /\ truthy (prop (attributes (render this)) "alwaysBounceVertical")
         = negb (truthy (prop (props this) "horizontal"))).
Proof.
  assert (Eh : prop (attributes (render this)) "alwaysBounceHorizontal"
               = alwaysBounceHorizontal this) by read_outer.
  assert (Ev : prop (attributes (render this)) "alwaysBounceVertical"
               = alwaysBounceVertical this) by read_outer.
  rewrite Eh, Ev. unfold alwaysBounceHorizontal, alwaysBounceVertical, js_not.
  split; [| split].
  - destruct (prop (props this) "alwaysBounceVertical"); simpl; discriminate.
  - destruct (prop (props this) "alwaysBounceHorizontal"); simpl;
      split; try discriminate; try tauto; intros [H _]; discriminate H.
  - intros -> ->. simpl. auto.
Qed.

(** ** Handling a scroll event *)

Lemma handleScroll_logged (this : Instance) (e : value) :
  logged (handleScroll this e) = []
  \/ exists cb, prop (props this) "onScroll" = VFun (FApp cb)
                /\ logged (handleScroll this e) = [Invoke cb [e]].
Proof.
  unfold handleScroll.
  destruct (prop (props this) "onScroll")
    as [| |[]|n|s| | |[cb| | |]| | | |n d]; simpl; auto.
  - destruct (n =? 0); simpl; auto.
  - destruct (String.eqb s ""); simpl; auto.
  - right. exists cb. split; [reflexivity |].
    destruct (failure cb); reflexivity.
  - destruct (n =? 0); simpl; auto.
Qed.

Lemma handleScroll_returns (this : Instance) (e : value) :
  truthy (prop (props this) "onScroll") = false
  \/ (exists f, prop (props this) "onScroll" = VFun f /\ fails f = None) ->
  result (handleScroll this e) = Normal VUndefined.
Proof.
  unfold handleScroll. intros [H | (f & H & Hf)]; rewrite H; [reflexivity |].
  destruct f; simpl in *; try reflexivity. now rewrite Hf.
Qed.

(** X13. [handleScroll] calls no application callback other than [onScroll],
    calls it at most once and with the event it was given; a falsy [onScroll]
    ([null], [false], 0 or the empty string as well as [undefined]) is
    skipped; and whenever [handleScroll] returns, it returns [undefined]. *)
Theorem handleScroll_outcomes (this : Instance) (e : value) :
  (logged (handleScroll this e) = []
   \/ exists cb, prop (props this) "onScroll" = VFun (FApp cb)
                 /\ logged (handleScroll this e) = [Invoke cb [e]])
  /\ (truthy (prop (props this) "onScroll") = false ->
      handleScroll this e = ([], Normal VUndefined))
  /\ (forall v, result (handleScroll this e) = Normal v -> v = VUndefined).
Proof.
  split; [| split].
  - exact (handleScroll_logged this e).
  - intros H. unfold handleScroll. now rewrite H.
  - unfold handleScroll.
    destruct (truthy (prop (props this) "onScroll")); simpl.
    + destruct (prop (props this) "onScroll")
        as [| | | | | | |[cb| | |]| | | |]; simpl;
        try (intros v [= <-]; reflexivity); try (intros v [=]; fail).
      destruct (failure cb); simpl; intros v [= <-]; reflexivity.
    + intros v [= <-]. reflexivity.
Qed.

(** X14. When [onScroll] is truthy but not a function, [handleScroll] throws
    a [TypeError] and calls nothing. *)
Theorem handleScroll_throws_on_non_function (this : Instance) (e : value) :
  truthy (prop (props this) "onScroll") = true ->
  (forall f, prop (props this) "onScroll" <> VFun f) ->
  exists msg, handleScroll this e = ([], Throws (TypeError msg)).
Proof.
  intros Ht Hf. unfold handleScroll. rewrite Ht.
  destruct (prop (props this) "onScroll") as [| | | | | | |f| | | |];
    simpl in *; try discriminate; eauto.
  exfalso. exact (Hf f eq_refl).
Qed.

Lemma handleScroll_throws_on_non_function_witness :
  exists msg,
    handleScroll {| props := {[ "onScroll" := VStr "log" ]}; refs := ∅ |}
                 (VNum 1)
    = ([], Throws (TypeError msg)).
Proof.
  apply handleScroll_throws_on_non_function.
  - reflexivity.
  - intros f. vm_compute. discriminate.
Defined.

(** ** Delivery of scroll notifications, for any throttle *)

(** X15. Whatever the throttle does, every call of an application callback
    made while scroll notifications are delivered is a call of [onScroll]
    with exactly one argument, a payload that the throttle forwarded at that
    time; so without an [onScroll] function, or with a falsy
    [scrollEventThrottle], nothing is called. *)
Theorem delivery_calls_only_onScroll
    (throttleRun : value -> list (Z * value) -> list (Z * value))
    (this : Instance) (notifs : list (Z * value)) (c : Z * invocation) :
  In c (onScrollCalls throttleRun this notifs) ->
  exists cb e,
    prop (props this) "onScroll" = VFun (FApp cb)
    /\ truthy (prop (props this) "scrollEventThrottle") = true
    /\ c = (fst c, Invoke cb [e])
    /\ In (fst c, e)
          (throttleRun (prop (props this) "scrollEventThrottle") notifs).
Proof.
  unfold onScrollCalls, deliverScroll.
  rewrite ScrollViewFacts.attr_onScrollShouldSetResponder,
          ScrollViewFacts.attr_onScroll.
  unfold dispatchTo. intros Hin.
  apply in_flat_map in Hin as (x & Hx & Hc).
  apply in_app_or in Hx as [Hx | Hx].
  - unfold scrollHandler in Hx. rewrite truthy_js_and in Hx.
    destruct (truthy (prop (props this) "scrollEventThrottle")) eqn:Et;
      simpl in Hx.
    + destruct (truthy (prop (props this) "onScroll")) eqn:Eo; simpl in Hx.
      * apply in_map_iff in Hx as (n & <- & Hn). simpl in Hc.
        destruct (handleScroll_logged this (snd n)) as [H | (cb & Ho & H)].
        -- unfold logged in *. rewrite H in Hc. contradiction.
        -- unfold logged in *. rewrite H in Hc. simpl in Hc.
           destruct Hc as [<- | []].
           exists cb, (snd n). simpl. repeat split; auto.
           now destruct n.
      * apply in_map_iff in Hx as (n & <- & Hn). contradiction.
    + apply in_map_iff in Hx as (n & <- & Hn). contradiction.
  - simpl in Hx. apply in_map_iff in Hx as (n & <- & Hn). contradiction.
Qed.

Lemma delivery_calls_only_onScroll_witness :
  In (0, VStr "a")
     (Throttle.throttled (VNum 100) [(0, VStr "a"); (5, VStr "b")]).
Proof.
  destruct (delivery_calls_only_onScroll Throttle.throttled
              {| props := {[ "scrollEventThrottle" := VNum 100;
                             "onScroll" := VFun (FApp 7) ]};
                 refs := ∅ |}
              [(0, VStr "a"); (5, VStr "b")]
              (0, Invoke 7 [VStr "a"]))
    as (cb & e & _ & _ & Hc & Hin).
  - vm_compute. auto.
  - injection Hc as _ <-. exact Hin.
Defined.

(** X16. Whatever the throttle does, delivering scroll notifications throws
    nothing when [onScroll] is falsy or is a function whose calls return: the
    widget adds no failure of its own.  It does not catch one either: when
    the [onScroll] callback throws, the exception escapes [handleScroll],
    after the call has been made. *)
Theorem delivery_failures
    (throttleRun : value -> list (Z * value) -> list (Z * value))
    (this : Instance) (notifs : list (Z * value)) :
  (truthy (prop (props this) "onScroll") = false
   \/ (exists f, prop (props this) "onScroll" = VFun f /\ fails f = None) ->
   noThrow throttleRun this notifs)
  /\ (forall (cb : callback) (err : exn) (e : value),
        prop (props this) "onScroll" = VFun (FApp cb) ->
        failure cb = Some err ->
        handleScroll this e = ([Invoke cb [e]], Throws err)).
Proof.
  split.
  - intros Ho. unfold noThrow, deliverScroll.
    rewrite ScrollViewFacts.attr_onScrollShouldSetResponder,
            ScrollViewFacts.attr_onScroll.
    unfold dispatchTo. apply Forall_app. split.
    + unfold scrollHandler.
      destruct (truthy (js_and _ _)); simpl.
      * apply Forall_forall. intros x Hx.
        apply list_elem_of_In, in_map_iff in Hx as (n & <- & _). simpl.
        rewrite (handleScroll_returns this (snd n) Ho). eauto.
      * apply (ScrollViewFacts.noThrow_noop throttleRun this).
    + apply (ScrollViewFacts.noThrow_noop throttleRun this).
  - intros cb err e Ho Hf. unfold handleScroll. rewrite Ho. simpl.
    now rewrite Hf.
Qed.

Lemma delivery_failures_witness :
  noThrow Throttle.throttled
    {| props := {[ "scrollEventThrottle" := VNum 16;
                   "onScroll" := VNull ]};
       refs := ∅ |}
    [(0, VStr "a"); (20, VStr "b")]
  /\ handleScroll
       {| props := {[ "onScroll" :=
                        VFun (FApp {| name := 7;
                                      failure := Some (AppError "boom") |}) ]};
          refs := ∅ |}
       (VStr "a")
     = ([Invoke 7 [VStr "a"]], Throws (AppError "boom")).
Proof.
  split.
  - apply delivery_failures. left. reflexivity.
  - destruct (delivery_failures Throttle.throttled
                {| props := {[ "onScroll" :=
                                 VFun (FApp {| name := 7;
                                               failure := Some (AppError "boom") |}) ]};
                   refs := ∅ |} []) as [_ H].
    apply (H {| name := 7; failure := Some (AppError "boom") |}
             (AppError "boom") (VStr "a")); reflexivity.
Defined.

End ScrollViewExtra.
